(** * RouterOutlet: the outlet activation state machine

    A shallow embedding of [packages/router/src/directives/router_outlet.ts]:
    the [RouterOutlet] directive, the [OutletInjector] it builds for activated
    views and the [ɵEmptyOutletComponent] placeholder that relays the events
    of its nested outlet.

    Objects are kept in a store and referred to by identity, so that two
    references to one outlet or one component see the same mutations.  A
    method is a function from the store to an outcome and a store: a thrown
    exception keeps the mutations made before the throw. *)

From stdpp Require Import gmap strings list fin_maps.

(** ** Values shared by the whole development *)

(** [Data] of [../config]: the static data attached to a route. *)
Abbreviation Data := (gmap string string).

(** The class a route configuration names in its [component] field.  The
    router's configuration step puts [ɵEmptyOutletComponent] there when a
    route has children and no component of its own. *)
Inductive ComponentType :=
| EmptyOutletComponentType
| ViewType (selector : string).

#[global] Instance ComponentType_eq_dec : EqDecision ComponentType.
Proof. solve_decision. Defined.

(** The parts of [Route], [ActivatedRouteSnapshot] and [ActivatedRoute]
    (declared in [../config] and [../router_state]) that the outlet reads. *)
Module Route.
Record t := { component : ComponentType }.
End Route.
Abbreviation Route := Route.t.

Record ActivatedRouteSnapshot := {
  routeConfig : option Route;
  data : Data
}.

Record ActivatedRoute := {
  snapshot : ActivatedRouteSnapshot;
  _futureSnapshot : ActivatedRouteSnapshot
}.

(** What a method can throw. *)
Inductive Error :=
| NotActivatedError        (* Error('Outlet is not activated') *)
| AlreadyActivatedError    (* Error('Cannot activate an already activated outlet') *)
| TypeError                (* a property read on null *)
| NoComponentFactoryError  (* resolveComponentFactory found no factory *)
| InstantiationError       (* the view could not be constructed *)
| InjectorError            (* the parent injector had no provider *)
| RangeError               (* the call stack is exhausted *)
| InvalidReference.        (* an identity the store does not hold *)

#[global] Instance Error_eq_dec : EqDecision Error.
Proof. solve_decision. Defined.

Inductive Result (A : Type) :=
| Ok (a : A)
| Throw (e : Error).
Arguments Ok {A} a.
Arguments Throw {A} e.

Definition is_ok {A} (r : Result A) : bool :=
  match r with Ok _ => true | Throw _ => false end.

(** ** Dependency resolvers *)

(** Injection tokens: the two classes [OutletInjector] overrides, and the
    others. *)
Inductive Token :=
| ActivatedRouteToken
| ChildrenOutletContextsToken
| OtherToken (n : nat).

#[global] Instance Token_eq_dec : EqDecision Token.
Proof. solve_decision. Defined.

(** What a lookup can return: a route, a [ChildrenOutletContexts] object
    (by identity), or some other provided value. *)
Inductive Value :=
| RouteValue (r : ActivatedRoute)
| ContextsValue (contexts : nat)
| OtherValue (n : nat).

(** [Injector.get(token, notFoundValue?)]: [None] is an omitted
    [notFoundValue]. *)
Abbreviation Injector := (Token -> option Value -> Result Value).

(** [class OutletInjector implements Injector] *)
Record OutletInjector := {
  route : ActivatedRoute;
  childContexts : nat;
  parent : Injector
}.

Module OutletInjector.
Definition get (this : OutletInjector) (token : Token)
      (notFoundValue : option Value) : Result Value :=
    match token with
    | ActivatedRouteToken => Ok (RouteValue (route this))
    | ChildrenOutletContextsToken => Ok (ContextsValue (childContexts this))
    | _ => parent this token notFoundValue
    end.
End OutletInjector.

(** Modelled from the spec: the view-instantiation primitive of section 6
    ("construct-a-view-from-descriptor(descriptor, insertion-index,
    dependency-resolver)").  A [ComponentFactory] knows the class it builds and
    whether building it with a given injector succeeds. *)
Record ComponentFactory := {
  componentType : ComponentType;
  create : OutletInjector -> bool
}.

(** [ComponentFactoryResolver.resolveComponentFactory]: [None] when it throws
    for want of a factory. *)
Abbreviation ComponentFactoryResolver :=
  (ComponentType -> option ComponentFactory).

(** ** Objects of the store *)

(** [class ɵEmptyOutletComponent].  [outlet] is the [@ViewChild] query: [None]
    until the framework resolves it.  An observer of [activateEvents] or
    [deactivateEvents] is a relay installed by [activateWith]: the
    subscription sink it belongs to and the outlet that re-emits.  [destroy_]
    holds the sinks that [destroy$] will unsubscribe. *)
Record EmptyOutletComponent := {
  outlet : option nat;
  proxyActivateEvents : list (nat * nat);
  proxyDeactivateEvents : list (nat * nat);
  destroy_ : list nat
}.

Inductive Instance :=
| ViewInstance (selector : string)
| EmptyOutletInstance (c : EmptyOutletComponent).

Definition instanceofEmptyOutletComponent (i : Instance) : bool :=
  match i with EmptyOutletInstance _ => true | ViewInstance _ => false end.

(** [ComponentRef]: the [instance] it holds (a reference to that instance is
    the identity of the ref), the injector it was created with and whether
    [destroy()] ran. *)
Record ComponentRef := {
  instance : Instance;
  refInjector : option OutletInjector;
  destroyed : bool
}.

(** Modelled from the spec: the positional view container of section 6
    ([ViewContainerRef]): the host views it holds, in order, and its
    injector. *)
Record ViewContainerRef := {
  views : list nat;
  injector : Injector
}.

(** The two event channels of an outlet and of a placeholder. *)
Inductive Channel := ActivateChannel | DeactivateChannel.

(** [class RouterOutlet].  An emitted value is a reference to a component
    instance or null ([None]).  The two emitters are kept as the list of the
    values emitted so far, oldest first; [host] is the placeholder whose
    template binds them, [(activate)="activate($event)"
    (deactivate)="deactivate($event)"], when the outlet is the nested outlet
    of one.  [changeDetector] counts the [markForCheck()] calls. *)
Record RouterOutlet := {
  activated : option nat;
  _activatedRoute : option ActivatedRoute;
  name : string;
  activateEvents : list (option nat);
  deactivateEvents : list (option nat);
  parentContexts : nat;
  location : ViewContainerRef;
  resolver : ComponentFactoryResolver;
  changeDetector : nat;
  host : option nat
}.

(** Modelled from the spec: [OutletContext] of the data model (section 3), the
    record [{route, resolver, attachRef, outlet-instance}] of a registry
    entry, with the registry scope nested under it. *)
Record OutletContext := {
  ctxOutlet : option nat;
  ctxRoute : option ActivatedRoute;
  ctxResolver : option ComponentFactoryResolver;
  ctxAttachRef : option nat;
  ctxChildren : nat
}.

(** The store: outlets, component refs and registry scopes
    ([ChildrenOutletContexts] objects) by identity, and the next fresh
    identity. *)
Record Store := {
  outlets : gmap nat RouterOutlet;
  components : gmap nat ComponentRef;
  registries : gmap nat (gmap string OutletContext);
  nextId : nat
}.

Definition emptyStore : Store :=
  {| outlets := ∅; components := ∅; registries := ∅; nextId := 0 |}.

Definition PRIMARY_OUTLET : string := "primary".

(** ** Store updates *)

Definition setOutlet (o : nat) (this : RouterOutlet) (σ : Store) : Store :=
  {| outlets := <[o := this]> (outlets σ);
     components := components σ;
     registries := registries σ;
     nextId := nextId σ |}.

Definition setComponent (c : nat) (r : ComponentRef) (σ : Store) : Store :=
  {| outlets := outlets σ;
     components := <[c := r]> (components σ);
     registries := registries σ;
     nextId := nextId σ |}.

Definition setRegistry (g : nat) (m : gmap string OutletContext) (σ : Store) : Store :=
  {| outlets := outlets σ;
     components := components σ;
     registries := <[g := m]> (registries σ);
     nextId := nextId σ |}.

Definition fresh (σ : Store) : nat * Store :=
  (nextId σ,
   {| outlets := outlets σ;
      components := components σ;
      registries := registries σ;
      nextId := S (nextId σ) |}).

(** Field updates of an outlet. *)
Definition withActivation (a : option nat) (r : option ActivatedRoute)
    (this : RouterOutlet) : RouterOutlet :=
  {| activated := a; _activatedRoute := r; name := name this;
     activateEvents := activateEvents this;
     deactivateEvents := deactivateEvents this;
     parentContexts := parentContexts this; location := location this;
     resolver := resolver this; changeDetector := changeDetector this;
     host := host this |}.

Definition withViews (vs : list nat) (this : RouterOutlet) : RouterOutlet :=
  {| activated := activated this; _activatedRoute := _activatedRoute this;
     name := name this;
     activateEvents := activateEvents this;
     deactivateEvents := deactivateEvents this;
     parentContexts := parentContexts this;
     location := {| views := vs; injector := injector (location this) |};
     resolver := resolver this; changeDetector := changeDetector this;
     host := host this |}.

Definition withEvents (act deact : list (option nat)) (this : RouterOutlet)
    : RouterOutlet :=
  {| activated := activated this; _activatedRoute := _activatedRoute this;
     name := name this;
     activateEvents := act; deactivateEvents := deact;
     parentContexts := parentContexts this; location := location this;
     resolver := resolver this; changeDetector := changeDetector this;
     host := host this |}.

Definition withMarkForCheck (this : RouterOutlet) : RouterOutlet :=
  {| activated := activated this; _activatedRoute := _activatedRoute this;
     name := name this;
     activateEvents := activateEvents this;
     deactivateEvents := deactivateEvents this;
     parentContexts := parentContexts this; location := location this;
     resolver := resolver this; changeDetector := S (changeDetector this);
     host := host this |}.

(** The values an outlet emitted so far on a channel. *)
Definition emitted (ch : Channel) (this : RouterOutlet) : list (option nat) :=
  match ch with
  | ActivateChannel => activateEvents this
  | DeactivateChannel => deactivateEvents this
  end.

Definition record (ch : Channel) (v : option nat) (this : RouterOutlet)
    : RouterOutlet :=
  match ch with
  | ActivateChannel =>
      withEvents (activateEvents this ++ [v]) (deactivateEvents this) this
  | DeactivateChannel =>
      withEvents (activateEvents this) (deactivateEvents this ++ [v]) this
  end.

(** The relays subscribed to a channel of a placeholder. *)
Definition observers (ch : Channel) (c : EmptyOutletComponent) : list (nat * nat) :=
  match ch with
  | ActivateChannel => proxyActivateEvents c
  | DeactivateChannel => proxyDeactivateEvents c
  end.

(** ** Methods: outcome and store *)

Definition M (A : Type) : Type := Store -> Result A * Store.

Definition ret {A} (a : A) : M A := fun σ => (Ok a, σ).
Definition throw {A} (e : Error) : M A := fun σ => (Throw e, σ).
Definition bind {A B} (m : M A) (k : A -> M B) : M B :=
  fun σ => match m σ with
           | (Ok a, σ') => k a σ'
           | (Throw e, σ') => (Throw e, σ')
           end.
Definition gets {A} (f : Store -> A) : M A := fun σ => (Ok (f σ), σ).
Definition modify (f : Store -> Store) : M unit := fun σ => (Ok tt, f σ).
Definition lift {A} (f : Store -> Result A) : M A := fun σ => (f σ, σ).

Notation "'let*' x ':=' m 'in' k" := (bind m (fun x => k))
  (at level 10, x name, m at level 100, k at level 200, only parsing).
Notation "m1 ';;' m2" := (bind m1 (fun _ => m2))
  (at level 100, m2 at level 200, right associativity, only parsing).

(** Reading an object of the store by identity. *)
Definition getOutlet (o : nat) : M RouterOutlet :=
  fun σ => match outlets σ !! o with
           | Some this => (Ok this, σ)
           | None => (Throw InvalidReference, σ)
           end.

Definition getComponent (c : nat) : M ComponentRef :=
  fun σ => match components σ !! c with
           | Some r => (Ok r, σ)
           | None => (Throw InvalidReference, σ)
           end.

Definition updateOutlet (o : nat) (f : RouterOutlet -> RouterOutlet) : M unit :=
  let* this := getOutlet o in
  modify (setOutlet o (f this)).

(** ** The context registry *)

(** Modelled from the spec: [ChildrenOutletContexts] of
    [../router_outlet_context], which is not part of this file.  Section 6
    gives its interface: [getContext(name)] returns the context or null,
    [getOrCreateContext(name)] returns the context and creates it, with a new
    nested scope, when the name has none, [onChildOutletCreated(name, outlet)]
    records the live outlet in the context of its name and
    [onChildOutletDestroyed(name)] forgets it. *)
Module ChildrenOutletContexts.

Definition getContext (this : nat) (childName : string)
      : M (option OutletContext) :=
    fun σ => match registries σ !! this with
             | Some m => (Ok (m !! childName), σ)
             | None => (Throw InvalidReference, σ)
             end.

Definition getOrCreateContext (this : nat) (childName : string)
      : M OutletContext :=
    fun σ => match registries σ !! this with
             | None => (Throw InvalidReference, σ)
             | Some m =>
                 match m !! childName with
                 | Some context => (Ok context, σ)
                 | None =>
                     let '(children, σ1) := fresh σ in
                     let context :=
                       {| ctxOutlet := None; ctxRoute := None;
                          ctxResolver := None; ctxAttachRef := None;
                          ctxChildren := children |} in
                     (Ok context,
                      setRegistry this (<[childName := context]> m)
                        (setRegistry children ∅ σ1))
                 end
             end.

Definition setContextOutlet (ol : option nat) (context : OutletContext)
      : OutletContext :=
    {| ctxOutlet := ol; ctxRoute := ctxRoute context;
       ctxResolver := ctxResolver context;
       ctxAttachRef := ctxAttachRef context;
       ctxChildren := ctxChildren context |}.

Definition onChildOutletCreated (this : nat) (childName : string)
      (ol : nat) : M unit :=
    let* context := getOrCreateContext this childName in
    fun σ => match registries σ !! this with
             | Some m =>
                 (Ok tt,
                  setRegistry this
                    (<[childName := setContextOutlet (Some ol) context]> m) σ)
             | None => (Throw InvalidReference, σ)
             end.

Definition onChildOutletDestroyed (this : nat) (childName : string)
      : M unit :=
    let* context := getContext this childName in
    match context with
    | None => ret tt
    | Some context =>
        fun σ => match registries σ !! this with
                 | Some m =>
                     (Ok tt,
                      setRegistry this
                        (<[childName := setContextOutlet None context]> m) σ)
                 | None => (Throw InvalidReference, σ)
                 end
    end.

End ChildrenOutletContexts.

(** ** The view primitives *)

(** Modelled from the spec: the operations of the positional container and of
    a view handle that section 6 lists.  [createComponent] builds the
    instance of the factory's class and inserts its host view at [index];
    [insert] without an index and [detach] without an index work at the end
    of the container; [destroy] tears the instance down and takes its host
    view out of the container. *)
Module ViewContainerRef.

Definition length (this : ViewContainerRef) : nat := List.length (views this).

Definition newInstance (t : ComponentType) : Instance :=
    match t with
    | EmptyOutletComponentType =>
        EmptyOutletInstance
          {| outlet := None; proxyActivateEvents := [];
             proxyDeactivateEvents := []; destroy_ := [] |}
    | ViewType s => ViewInstance s
    end.

  (** [o] is the outlet that owns the container. *)
Definition createComponent (o : nat) (factory : ComponentFactory)
      (index : nat) (inj : OutletInjector) : M nat :=
    if create factory inj then
      let* this := getOutlet o in
      let* c := (fun σ => let '(c, σ1) := fresh σ in (Ok c, σ1)) in
      modify (setComponent c
                {| instance := newInstance (componentType factory);
                   refInjector := Some inj; destroyed := false |}) ;;
      modify (setOutlet o
                (withViews (take index (views (location this)) ++ c ::
                            drop index (views (location this))) this)) ;;
      ret c
    else throw InstantiationError.

Definition insert (o : nat) (hostView : nat) : M unit :=
    updateOutlet o (fun this => withViews (views (location this) ++ [hostView]) this).

Definition detach (o : nat) : M unit :=
    updateOutlet o (fun this => withViews (removelast (views (location this))) this).

End ViewContainerRef.

Fixpoint forEach {A} (l : list A) (f : A -> M unit) : M unit :=
  match l with
  | [] => ret tt
  | x :: l => f x ;; forEach l f
  end.

(** ** The placeholder component *)

Module EmptyOutletComponent.

  (** [get component()]; [outletComponent] is the getter of the nested
      outlet. *)
Definition component (outletComponent : nat -> Store -> Result (option nat))
      (this : EmptyOutletComponent) (σ : Store) : Result (option nat) :=
    match outlet this with
    | None => Ok None
    | Some o => outletComponent o σ
    end.

  (** [get activatedRoute()] *)
Definition activatedRoute
      (outletActivatedRoute : nat -> Store -> Result (option ActivatedRoute))
      (this : EmptyOutletComponent) (σ : Store) : Result (option ActivatedRoute) :=
    match outlet this with
    | None => Ok None
    | Some o => outletActivatedRoute o σ
    end.

  (** [get activatedRouteData()]: reads [this.activatedRoute], and reads it
      again when it was not null. *)
Definition activatedRouteData
      (outletActivatedRoute : nat -> Store -> Result (option ActivatedRoute))
      (this : EmptyOutletComponent) (σ : Store) : Result Data :=
    match activatedRoute outletActivatedRoute this σ with
    | Throw e => Throw e
    | Ok None => Ok ∅
    | Ok (Some _) =>
        match activatedRoute outletActivatedRoute this σ with
        | Throw e => Throw e
        | Ok None => Throw TypeError
        | Ok (Some r) => Ok (data (snapshot r))
        end
    end.

  (** [activate(ev)] and [deactivate(ev)]: emit on the channel of the
      placeholder, that is, run every subscribed relay; [reemit] is the
      [emit] of the relaying outlet. *)
Definition emit (reemit : nat -> M unit) (ch : Channel)
      (this : EmptyOutletComponent) : M unit :=
    forEach (observers ch this) (fun s => reemit (snd s)).

  (** [ngOnDestroy()]: [destroy$.next()] runs [sink.unsubscribe()] for every
      sink registered on it, then [destroy$.complete()]. *)
Definition unsubscribed (sinks : list nat) (obs : list (nat * nat))
      : list (nat * nat) :=
    filter (fun s => fst s ∉ sinks) obs.

Definition ngOnDestroy (this : EmptyOutletComponent) : EmptyOutletComponent :=
    {| outlet := outlet this;
       proxyActivateEvents := unsubscribed (destroy_ this) (proxyActivateEvents this);
       proxyDeactivateEvents := unsubscribed (destroy_ this) (proxyDeactivateEvents this);
       destroy_ := [] |}.

  (** The three subscriptions [activateWith] makes on a placeholder. *)
Definition subscribe (sink : nat) (o : nat) (this : EmptyOutletComponent)
      : EmptyOutletComponent :=
    {| outlet := outlet this;
       proxyActivateEvents := proxyActivateEvents this ++ [(sink, o)];
       proxyDeactivateEvents := proxyDeactivateEvents this ++ [(sink, o)];
       destroy_ := destroy_ this ++ [sink] |}.

  (** The framework resolving the [@ViewChild(RouterOutlet)] query. *)
Definition resolveViewChild (o : nat) (this : EmptyOutletComponent)
      : EmptyOutletComponent :=
    {| outlet := Some o;
       proxyActivateEvents := proxyActivateEvents this;
       proxyDeactivateEvents := proxyDeactivateEvents this;
       destroy_ := destroy_ this |}.

End EmptyOutletComponent.

Module ComponentRef.

Definition withInstance (i : Instance) (this : ComponentRef) : ComponentRef :=
    {| instance := i; refInjector := refInjector this;
       destroyed := destroyed this |}.

  (** Modelled from the spec: [destroy()] of a view handle (section 6).  It
      runs the [ngOnDestroy] of the instance and takes the host view out of
      the container of the outlet [o] that holds it. *)
Definition destroy (o : nat) (c : nat) : M unit :=
    let* this := getComponent c in
    modify (setComponent c
              {| instance :=
                   match instance this with
                   | EmptyOutletInstance p =>
                       EmptyOutletInstance (EmptyOutletComponent.ngOnDestroy p)
                   | ViewInstance s => ViewInstance s
                   end;
                 refInjector := refInjector this;
                 destroyed := true |}) ;;
    updateOutlet o (fun ol =>
      withViews (filter (fun v => v ≠ c) (views (location ol))) ol).

End ComponentRef.

(** ** The outlet *)

Module RouterOutlet.

  (** The constructor: [this.name = name || PRIMARY_OUTLET], then the outlet
      registers itself.  [nameAttr] is the [name] attribute, [None] when the
      element has none. *)
Definition new (contexts : nat) (loc : ViewContainerRef)
      (rsv : ComponentFactoryResolver) (nameAttr : option string)
      (hostComponent : option nat) : M nat :=
    let n := match nameAttr with
             | Some s => if decide (s = EmptyString) then PRIMARY_OUTLET else s
             | None => PRIMARY_OUTLET
             end in
    let* o := (fun σ => let '(o, σ1) := fresh σ in (Ok o, σ1)) in
    modify (setOutlet o
              {| activated := None; _activatedRoute := None; name := n;
                 activateEvents := []; deactivateEvents := [];
                 parentContexts := contexts; location := loc;
                 resolver := rsv; changeDetector := 0;
                 host := hostComponent |}) ;;
    ChildrenOutletContexts.onChildOutletCreated contexts n o ;;
    ret o.

Definition ngOnDestroy (o : nat) : M unit :=
    let* this := getOutlet o in
    ChildrenOutletContexts.onChildOutletDestroyed (parentContexts this) (name this).

  (** [get isActivated()] *)
Definition isActivated (o : nat) : M bool :=
    let* this := getOutlet o in
    ret (bool_decide (is_Some (activated this))).

  (** [get component()].  The fuel bounds the depth of the calls through
      nested placeholders; a call that exhausts it fails as the runtime does
      when its stack is exhausted. *)
Fixpoint component (fuel : nat) (o : nat) (σ : Store) : Result (option nat) :=
    match fuel with
    | 0 => Throw RangeError
    | S fuel =>
        match outlets σ !! o with
        | None => Throw InvalidReference
        | Some this =>
            match activated this with
            | None => Throw NotActivatedError
            | Some a =>
                match components σ !! a with
                | None => Throw InvalidReference
                | Some r =>
                    match instance r with
                    | EmptyOutletInstance c =>
                        EmptyOutletComponent.component (component fuel) c σ
                    | ViewInstance _ => Ok (Some a)
                    end
                end
            end
        end
    end.

  (** [get activatedRoute()] *)
Definition activatedRoute (o : nat) (σ : Store) : Result (option ActivatedRoute) :=
    match outlets σ !! o with
    | None => Throw InvalidReference
    | Some this =>
        match activated this with
        | None => Throw NotActivatedError
        | Some _ => Ok (_activatedRoute this)
        end
    end.

  (** [get activatedRouteData()] *)
Definition activatedRouteData (o : nat) (σ : Store) : Result Data :=
    match outlets σ !! o with
    | None => Throw InvalidReference
    | Some this =>
        match _activatedRoute this with
        | Some r => Ok (data (snapshot r))
        | None => Ok ∅
        end
    end.

  (** [EventEmitter.emit(ev)] on a channel of the outlet [o]: the value
      reaches the listeners of the outlet, and the handler of the host
      placeholder, when there is one, emits it on the placeholder's channel,
      where each relay emits it on its own outlet. *)
Fixpoint emit (fuel : nat) (ch : Channel) (ev : option nat) (o : nat)
      : M unit :=
    match fuel with
    | 0 => throw RangeError
    | S fuel =>
        let* this := getOutlet o in
        modify (setOutlet o (record ch ev this)) ;;
        match host this with
        | None => ret tt
        | Some p =>
            let* r := getComponent p in
            match instance r with
            | EmptyOutletInstance c =>
                EmptyOutletComponent.emit (emit fuel ch ev) ch c
            | ViewInstance _ => throw InvalidReference
            end
        end
    end.

  (** [detach()] *)
Definition detach (o : nat) : M nat :=
    let* this := getOutlet o in
    match activated this with
    | None => throw NotActivatedError
    | Some cmp =>
        ViewContainerRef.detach o ;;
        updateOutlet o (withActivation None None) ;;
        ret cmp
    end.

  (** [attach(ref, activatedRoute)] *)
Definition attach (o : nat) (ref : nat) (activatedRoute : ActivatedRoute)
      : M unit :=
    updateOutlet o (withActivation (Some ref) (Some activatedRoute)) ;;
    ViewContainerRef.insert o ref.

  (** [c instanceof ɵEmptyOutletComponent] for a value that is a reference
      or null. *)
Definition isEmptyOutletComponent (σ : Store) (c : option nat) : bool :=
    match c with
    | None => false
    | Some c =>
        match components σ !! c with
        | Some r => instanceofEmptyOutletComponent (instance r)
        | None => false
        end
    end.

  (** [deactivate()] *)
Definition deactivate (fuel : nat) (o : nat) : M unit :=
    let* this := getOutlet o in
    match activated this with
    | None => ret tt
    | Some a =>
        let* c := lift (component fuel o) in
        ComponentRef.destroy o a ;;
        updateOutlet o (withActivation None None) ;;
        let* isEmpty := gets (fun σ => isEmptyOutletComponent σ c) in
        if negb isEmpty then emit fuel DeactivateChannel c o else ret tt
    end.

  (** [activateWith(activatedRoute, resolver)] *)
Definition activateWith (fuel : nat) (o : nat) (activatedRoute : ActivatedRoute)
      (rsv : option ComponentFactoryResolver) : M unit :=
    let* active := isActivated o in
    if active : bool then throw AlreadyActivatedError
    else
      let* this := getOutlet o in
      updateOutlet o (withActivation (activated this) (Some activatedRoute)) ;;
      let snapshot := _futureSnapshot activatedRoute in
      match routeConfig snapshot with
      | None => throw TypeError
      | Some config =>
          let cmp := Route.component config in
          let rsv := match rsv with Some r => r | None => resolver this end in
          match rsv cmp with
          | None => throw NoComponentFactoryError
          | Some factory =>
              let* context :=
                ChildrenOutletContexts.getOrCreateContext
                  (parentContexts this) (name this) in
              let inj := {| route := activatedRoute;
                            childContexts := ctxChildren context;
                            parent := injector (location this) |} in
              let* a := ViewContainerRef.createComponent o factory
                          (ViewContainerRef.length (location this)) inj in
              updateOutlet o (fun ol => withActivation (Some a) (_activatedRoute ol) ol) ;;
              updateOutlet o withMarkForCheck ;;
              let* r := getComponent a in
              match instance r with
              | EmptyOutletInstance c =>
                  let* sink := (fun σ => let '(s, σ1) := fresh σ in (Ok s, σ1)) in
                  modify (setComponent a
                            (ComponentRef.withInstance
                               (EmptyOutletInstance
                                  (EmptyOutletComponent.subscribe sink o c)) r))
              | ViewInstance _ =>
                  emit fuel ActivateChannel (Some a) o
              end
          end
      end.

  (** [ngOnInit()] *)
Definition ngOnInit (fuel : nat) (o : nat) : M unit :=
    let* this := getOutlet o in
    match activated this with
    | Some _ => ret tt
    | None =>
        let* context :=
          ChildrenOutletContexts.getContext (parentContexts this) (name this) in
        match context with
        | Some context =>
            match ctxRoute context with
            | Some rt =>
                match ctxAttachRef context with
                | Some ref => attach o ref rt
                | None => activateWith fuel o rt (ctxResolver context)
                end
            | None => ret tt
            end
        | None => ret tt
        end
    end.

End RouterOutlet.

(** The framework resolving the [@ViewChild(RouterOutlet)] query of the
    placeholder [p] to its nested outlet [o]. *)
Definition resolveViewChild (p : nat) (o : nat) : M unit :=
  let* r := getComponent p in
  match instance r with
  | EmptyOutletInstance c =>
      modify (setComponent p
                (ComponentRef.withInstance
                   (EmptyOutletInstance (EmptyOutletComponent.resolveViewChild o c)) r))
  | ViewInstance _ => throw InvalidReference
  end.

(** ** A concrete scene *)

(** One root registry scope (identity 0), one outlet in it, and the stores
    that the operations of the outlet lead to. *)
Module Scene.

Definition exec {A} (m : M A) (σ : Store) : Store := snd (m σ).

Definition nullInjector : Injector :=
  fun _ notFoundValue =>
    match notFoundValue with
    | Some v => Ok v
    | None => Throw InjectorError
    end.

Definition container : ViewContainerRef :=
  {| views := []; injector := nullInjector |}.

Definition factoryOf (t : ComponentType) : ComponentFactory :=
  {| componentType := t; create := fun _ => true |}.

Definition resolveAll : ComponentFactoryResolver := fun t => Some (factoryOf t).
Definition resolveNone : ComponentFactoryResolver := fun _ => None.

Definition routeOf (t : ComponentType) (d : Data) : ActivatedRoute :=
  {| snapshot := {| routeConfig := Some {| Route.component := t |}; data := d |};
     _futureSnapshot := {| routeConfig := Some {| Route.component := t |}; data := d |} |}.

Definition routeA : ActivatedRoute := routeOf (ViewType "ViewA") {[ "title" := "A" ]}.
Definition routeB : ActivatedRoute := routeOf (ViewType "ViewB") {[ "title" := "B" ]}.
Definition routeEmpty : ActivatedRoute := routeOf EmptyOutletComponentType ∅.

Definition root : Store := setRegistry 0 ∅ (snd (fresh emptyStore)).

(** The outlet 1, named "primary", registered in scope 0; its nested scope
    is 2. *)
Definition created : Store :=
  exec (RouterOutlet.new 0 container resolveAll None None) root.

(** The outlet 1 active with the ViewA instance 3. *)
Definition activeA : Store :=
  exec (RouterOutlet.activateWith 4 1 routeA None) created.

(** The outlet 1 active with the placeholder 3 (its relay sink is 4). *)
Definition activeEmpty : Store :=
  exec (RouterOutlet.activateWith 4 1 routeEmpty None) created.

(** The nested outlet 5 of the placeholder 3, registered in scope 2. *)
Definition nestedCreated : Store :=
  exec (RouterOutlet.new 2 container resolveAll None (Some 3)) activeEmpty.

Definition nestedResolved : Store :=
  exec (resolveViewChild 3 5) nestedCreated.

(** The nested outlet 5 active with the ViewA instance 7. *)
Definition nestedActive : Store :=
  exec (RouterOutlet.activateWith 4 5 routeA None) nestedResolved.

(** The outlet 1 as its constructor leaves it. *)
Definition freshOutlet : RouterOutlet :=
  {| activated := None; _activatedRoute := None; name := PRIMARY_OUTLET;
     activateEvents := []; deactivateEvents := [];
     parentContexts := 0; location := container; resolver := resolveAll;
     changeDetector := 0; host := None |}.

(** The outlet 1 after an activation that found no component factory. *)
Definition abortedA : Store :=
  exec (RouterOutlet.activateWith 4 1 routeA (Some resolveNone)) created.

(** The placeholder 3 once its view query is resolved to the outlet 5. *)
Definition placeholderResolved : EmptyOutletComponent :=
  {| outlet := Some 5;
     proxyActivateEvents := [(4, 1)];
     proxyDeactivateEvents := [(4, 1)];
     destroy_ := [4] |}.

(** The navigation engine left a route, and maybe a detached view, for the
    outlet named "primary" of scope 0. *)
Definition withPending (rt : ActivatedRoute) (ref : option nat) (σ : Store)
    : Store :=
  setRegistry 0
    {[ PRIMARY_OUTLET :=
         {| ctxOutlet := Some 1; ctxRoute := Some rt; ctxResolver := None;
            ctxAttachRef := ref; ctxChildren := 2 |} ]} σ.

Definition pendingA : Store := withPending routeA None created.
Definition pendingDetached : Store := withPending routeB (Some 9) created.

End Scene.

(** ** States and relations used in the statements *)

(** The state of an outlet after [attach]. *)
Definition attached (ref : nat) (rt : ActivatedRoute) (this : RouterOutlet)
    : RouterOutlet :=
  withViews (views (location this) ++ [ref])
    (withActivation (Some ref) (Some rt) this).

(** The state of an outlet after [detach]. *)
Definition detached (this : RouterOutlet) : RouterOutlet :=
  withActivation None None
    (withViews (removelast (views (location this))) this).

(** The outlet once its route is recorded, and once the view is mounted. *)
Definition routeRecorded (rt : ActivatedRoute) (this : RouterOutlet)
    : RouterOutlet :=
  withActivation (activated this) (Some rt) this.

Definition mountedOutlet (a : nat) (rt : ActivatedRoute) (this : RouterOutlet)
    : RouterOutlet :=
  withMarkForCheck
    (withActivation (Some a) (Some rt)
       (withViews (views (location this) ++ [a]) this)).

Definition outletInjector (rt : ActivatedRoute) (context : OutletContext)
    (this : RouterOutlet) : OutletInjector :=
  {| route := rt; childContexts := ctxChildren context;
     parent := injector (location this) |}.

Definition createdRef (factory : ComponentFactory) (inj : OutletInjector)
    : ComponentRef :=
  {| instance := ViewContainerRef.newInstance (componentType factory);
     refInjector := Some inj; destroyed := false |}.

(** The store once the view [nextId σ] is created in it and mounted in the
    outlet [o]. *)
Definition mounted (o : nat) (rt : ActivatedRoute) (factory : ComponentFactory)
    (inj : OutletInjector) (this : RouterOutlet) (σ : Store) : Store :=
  setOutlet o (mountedOutlet (nextId σ) rt this)
    (setComponent (nextId σ) (createdRef factory inj) (snd (fresh σ))).

(** What [activateWith] does after its check, when the outlet is Inactive. *)
Definition activateWithInactive (fuel : nat) (o : nat) (rt : ActivatedRoute)
    (rsv : option ComponentFactoryResolver) (this : RouterOutlet) (σ : Store)
    : Result unit * Store :=
  let σ1 := setOutlet o (routeRecorded rt this) σ in
  match routeConfig (_futureSnapshot rt) with
  | None => (Throw TypeError, σ1)
  | Some config =>
      match default (resolver this) rsv (Route.component config) with
      | None => (Throw NoComponentFactoryError, σ1)
      | Some factory =>
          match ChildrenOutletContexts.getOrCreateContext
                  (parentContexts this) (name this) σ1 with
          | (Throw e, σ2) => (Throw e, σ2)
          | (Ok context, σ2) =>
              let inj := outletInjector rt context this in
              if create factory inj then
                let σ3 := mounted o rt factory inj this σ2 in
                match ViewContainerRef.newInstance (componentType factory) with
                | ViewInstance _ =>
                    RouterOutlet.emit fuel ActivateChannel (Some (nextId σ2)) o σ3
                | EmptyOutletInstance c =>
                    (Ok tt,
                     setComponent (nextId σ2)
                       (ComponentRef.withInstance
                          (EmptyOutletInstance
                             (EmptyOutletComponent.subscribe (nextId σ3) o c))
                          (createdRef factory inj))
                       (snd (fresh σ3)))
                end
              else (Throw InstantiationError, σ2)
          end
      end
  end.

Definition withEmitted (ch : Channel) (l : list (option nat))
    (this : RouterOutlet) : RouterOutlet :=
  match ch with
  | ActivateChannel => withEvents l (deactivateEvents this) this
  | DeactivateChannel => withEvents (activateEvents this) l this
  end.

(** Two states of an outlet that differ at most in what was emitted on
    [ch]. *)
Definition sameButEmitted (ch : Channel) (a b : RouterOutlet) : Prop :=
  b = withEmitted ch (emitted ch b) a.

(** Two stores that differ at most in what their outlets emitted on [ch]. *)
Definition evolves (ch : Channel) (σ τ : Store) : Prop :=
  components τ = components σ /\
  registries τ = registries σ /\
  nextId τ = nextId σ /\
  forall x, option_Forall2 (sameButEmitted ch) (outlets σ !! x) (outlets τ !! x).

(** What the outlet [x] emitted on a channel so far. *)
Definition emittedAt (ch : Channel) (σ : Store) (x : nat)
    : option (list (option nat)) :=
  emitted ch <$> outlets σ !! x.

(** The placeholder as [activateWith] leaves it: one relay, to the
    activating outlet, on each channel, and its sink on [destroy$]. *)
Definition relayed (sink o : nat) : EmptyOutletComponent :=
  {| outlet := None;
     proxyActivateEvents := [(sink, o)];
     proxyDeactivateEvents := [(sink, o)];
     destroy_ := [sink] |}.

(** A component ref after [destroy()]. *)
Definition destroyedRef (r : ComponentRef) : ComponentRef :=
  {| instance :=
       match instance r with
       | EmptyOutletInstance p =>
           EmptyOutletInstance (EmptyOutletComponent.ngOnDestroy p)
       | ViewInstance s => ViewInstance s
       end;
     refInjector := refInjector r;
     destroyed := true |}.

(** An outlet after it destroyed its view [a] and cleared its activation. *)
Definition deactivatedOutlet (a : nat) (this : RouterOutlet) : RouterOutlet :=
  withActivation None None
    (withViews (filter (fun v => v ≠ a) (views (location this))) this).

Definition deactivatedStore (o a : nat) (this : RouterOutlet) (r : ComponentRef)
    (σ : Store) : Store :=
  setOutlet o (deactivatedOutlet a this) (setComponent a (destroyedRef r) σ).



(** An operation that returned, or that was refused on the activation state
    of the outlet. *)
Definition settled (r : Result unit) : Prop :=
  match r with
  | Ok _ => True
  | Throw e => e = AlreadyActivatedError \/ e = NotActivatedError
  end.




(** The activation of the outlet [x]: its view handle and its route. *)
Definition activation (σ : Store) (x : nat)
    : option (option nat * option ActivatedRoute) :=
  (fun this => (activated this, _activatedRoute this)) <$> outlets σ !! x.



(** The outlets that an event emitted by the outlet [n] on [ch] travels
    up to: the host of [n] is a placeholder with one relay, to the outlet
    that activated it, and so on up to an outlet that no placeholder
    hosts. *)
Inductive relayPath (ch : Channel) (σ : Store) : nat -> list nat -> Prop :=
| relayPath_top n this :
    outlets σ !! n = Some this ->
    host this = None ->
    relayPath ch σ n []
| relayPath_up n this p r c sink o rest :
    outlets σ !! n = Some this ->
    host this = Some p ->
    components σ !! p = Some r ->
    instance r = EmptyOutletInstance c ->
    observers ch c = [(sink, o)] ->
    relayPath ch σ o rest ->
    relayPath ch σ n (o :: rest).

(** Every relay of the placeholder belongs to a sink that [destroy$] will
    unsubscribe, as [activateWith] subscribes them. *)
Definition sinksRegistered (c : EmptyOutletComponent) : Prop :=
  forall ch s, s ∈ observers ch c -> s.1 ∈ destroy_ c.

(** What is found under the outlet [o], [depth] placeholders down: the view
    of the innermost outlet, or null under a placeholder whose reference to
    its nested outlet is not set. *)
Inductive nesting (σ : Store) : nat -> nat -> option nat -> Prop :=
| nesting_view o this a r s :
    outlets σ !! o = Some this ->
    activated this = Some a ->
    components σ !! a = Some r ->
    instance r = ViewInstance s ->
    nesting σ o 0 (Some a)
| nesting_unset o this a r c :
    outlets σ !! o = Some this ->
    activated this = Some a ->
    components σ !! a = Some r ->
    instance r = EmptyOutletInstance c ->
    outlet c = None ->
    nesting σ o 0 None
| nesting_placeholder o this a r c nested depth res :
    outlets σ !! o = Some this ->
    activated this = Some a ->
    components σ !! a = Some r ->
    instance r = EmptyOutletInstance c ->
    outlet c = Some nested ->
    nesting σ nested depth res ->
    nesting σ o (S depth) res.


(** The outlet 1 while it is Active with the ViewA instance 3, as the scene
    [Scene.activeA] has it. *)
Definition outletA : RouterOutlet :=
  record ActivateChannel (Some 3) (mountedOutlet 3 Scene.routeA Scene.freshOutlet).

(** * Properties *)

(** ** Reading the store after an update *)

Lemma lookup_setOutlet_eq o this σ :
  outlets (setOutlet o this σ) !! o = Some this.
Proof. simpl. apply lookup_insert_eq. Qed.

Lemma lookup_setOutlet_ne o x this σ :
  o ≠ x -> outlets (setOutlet o this σ) !! x = outlets σ !! x.
Proof. intros. simpl. by apply lookup_insert_ne. Qed.

Lemma setOutlet_setOutlet o this1 this2 σ :
  setOutlet o this2 (setOutlet o this1 σ) = setOutlet o this2 σ.
Proof. unfold setOutlet. simpl. by rewrite insert_insert_eq. Qed.

Lemma getOutlet_Some o this σ :
  outlets σ !! o = Some this -> getOutlet o σ = (Ok this, σ).
Proof. intros H. unfold getOutlet. by rewrite H. Qed.

Lemma updateOutlet_Some o f this σ :
  outlets σ !! o = Some this ->
  updateOutlet o f σ = (Ok tt, setOutlet o (f this) σ).
Proof. intros H. unfold updateOutlet, bind, modify. by rewrite (getOutlet_Some _ _ _ H). Qed.

Lemma bind_Ok {A B} (m : M A) (k : A -> M B) σ a σ1 :
  m σ = (Ok a, σ1) -> bind m k σ = k a σ1.
Proof. intros H. unfold bind. by rewrite H. Qed.

Lemma bind_Throw {A B} (m : M A) (k : A -> M B) σ e σ1 :
  m σ = (Throw e, σ1) -> bind m k σ = (Throw e, σ1).
Proof. intros H. unfold bind. by rewrite H. Qed.

Lemma attach_spec σ o this ref rt :
  outlets σ !! o = Some this ->
  RouterOutlet.attach o ref rt σ = (Ok tt, setOutlet o (attached ref rt this) σ).
Proof.
  intros H. unfold RouterOutlet.attach, ViewContainerRef.insert.
  rewrite (bind_Ok _ _ _ _ _ (updateOutlet_Some _ _ _ _ H)).
  rewrite (updateOutlet_Some _ _ _ _ (lookup_setOutlet_eq _ _ _)).
  by rewrite setOutlet_setOutlet.
Qed.

Lemma detach_spec σ o this a :
  outlets σ !! o = Some this ->
  activated this = Some a ->
  RouterOutlet.detach o σ = (Ok a, setOutlet o (detached this) σ).
Proof.
  intros H Ha. unfold RouterOutlet.detach, ViewContainerRef.detach.
  rewrite (bind_Ok _ _ _ _ _ (getOutlet_Some _ _ _ H)), Ha.
  rewrite (bind_Ok _ _ _ _ _ (updateOutlet_Some _ _ _ _ H)).
  rewrite (bind_Ok _ _ _ _ _ (updateOutlet_Some _ _ _ _ (lookup_setOutlet_eq _ _ _))).
  by rewrite setOutlet_setOutlet.
Qed.

Lemma detach_inactive σ o this :
  outlets σ !! o = Some this ->
  activated this = None ->
  RouterOutlet.detach o σ = (Throw NotActivatedError, σ).
Proof.
  intros H Ha. unfold RouterOutlet.detach.
  by rewrite (bind_Ok _ _ _ _ _ (getOutlet_Some _ _ _ H)), Ha.
Qed.

Lemma isActivated_spec σ o this :
  outlets σ !! o = Some this ->
  RouterOutlet.isActivated o σ =
    (Ok (bool_decide (is_Some (activated this))), σ).
Proof.
  intros H. unfold RouterOutlet.isActivated.
  by rewrite (bind_Ok _ _ _ _ _ (getOutlet_Some _ _ _ H)).
Qed.

(** [component] reads the [activated] field of the outlets and the
    component refs, and nothing else of the store. *)
Lemma component_ext fuel : forall o σ τ,
  (forall x, activated <$> outlets σ !! x = activated <$> outlets τ !! x) ->
  components σ = components τ ->
  RouterOutlet.component fuel o σ = RouterOutlet.component fuel o τ.
Proof.
  induction fuel as [|fuel IH]; intros o σ τ Hout Hcmp; [done|].
  simpl. specialize (Hout o) as Ho. rewrite <- Hcmp.
  destruct (outlets σ !! o) as [this|], (outlets τ !! o) as [that|];
    simpl in Ho; try done.
  injection Ho as ->.
  destruct (activated that) as [a|]; [|done].
  destruct (components σ !! a) as [r|]; [|done].
  destruct (instance r) as [|c]; [done|].
  unfold EmptyOutletComponent.component.
  destruct (outlet c); [|done]. by apply IH.
Qed.

(** ** attach and detach *)

(** C10: [attach(ref, activatedRoute)] checks nothing and does not fail.
    Whatever the outlet held, and so also when it was Active, it ends with
    [ref] and the supplied route as its activation, the host view of [ref]
    appended after the views the container already had; no component ref is
    destroyed or changed, nothing is emitted on either channel, and no other
    outlet is touched. *)
Theorem attach_overwrites_unchecked σ o this ref rt :
  outlets σ !! o = Some this ->
  exists σ' that,
    RouterOutlet.attach o ref rt σ = (Ok tt, σ') /\
    outlets σ' !! o = Some that /\
    activated that = Some ref /\
    _activatedRoute that = Some rt /\
    views (location that) = views (location this) ++ [ref] /\
    activateEvents that = activateEvents this /\
    deactivateEvents that = deactivateEvents this /\
    components σ' = components σ /\
    (forall x, x ≠ o -> outlets σ' !! x = outlets σ !! x).
Proof.
  intros H. exists (setOutlet o (attached ref rt this) σ), (attached ref rt this).
  split; [by apply attach_spec|].
  split; [apply lookup_setOutlet_eq|].
  repeat split; try done.
  intros x Hx. by apply lookup_setOutlet_ne.
Qed.

(** The outlet 1 is Active with the ViewA instance 3 and is attached the
    handle 9 with another route. *)
Lemma attach_overwrites_unchecked_witness :
  exists this,
    outlets Scene.activeA !! 1 = Some this /\
    activated this = Some 3 /\
    exists σ' that,
      RouterOutlet.attach 1 9 Scene.routeB Scene.activeA = (Ok tt, σ') /\
      outlets σ' !! 1 = Some that /\
      activated that = Some 9 /\
      _activatedRoute that = Some Scene.routeB /\
      views (location that) = views (location this) ++ [9] /\
      activateEvents that = activateEvents this /\
      deactivateEvents that = deactivateEvents this /\
      components σ' = components Scene.activeA /\
      (forall x, x ≠ 1 -> outlets σ' !! x = outlets Scene.activeA !! x).
Proof.
  eexists. split; [reflexivity|]. split; [reflexivity|].
  apply (attach_overwrites_unchecked Scene.activeA 1 _ 9 Scene.routeB).
  reflexivity.
Defined.

(** C5: [detach()] on an Inactive outlet throws the not-activated error and
    changes nothing.  On an Active outlet it returns the activated handle,
    takes the last view out of the container, clears handle and route, and
    destroys no component ref; [attach] of the returned handle with any route
    then makes [isActivated] true again, and [component] answers exactly as
    it did before the detach. *)
Theorem detach_then_attach_restores σ o this :
  outlets σ !! o = Some this ->
  (activated this = None ->
   RouterOutlet.detach o σ = (Throw NotActivatedError, σ)) /\
  (forall a, activated this = Some a ->
   exists σ1 that,
     RouterOutlet.detach o σ = (Ok a, σ1) /\
     components σ1 = components σ /\
     outlets σ1 !! o = Some that /\
     activated that = None /\
     _activatedRoute that = None /\
     views (location that) = removelast (views (location this)) /\
     forall rt, exists σ2,
       RouterOutlet.attach o a rt σ1 = (Ok tt, σ2) /\
       RouterOutlet.isActivated o σ2 = (Ok true, σ2) /\
       forall fuel,
         RouterOutlet.component fuel o σ2 = RouterOutlet.component fuel o σ).
Proof.
  intros H. split; [by apply detach_inactive|].
  intros a Ha.
  exists (setOutlet o (detached this) σ), (detached this).
  split; [by apply detach_spec|].
  split; [done|]. split; [apply lookup_setOutlet_eq|].
  repeat split; try done.
  intros rt. eexists. split.
  { apply attach_spec. apply lookup_setOutlet_eq. }
  rewrite setOutlet_setOutlet. split.
  { by rewrite (isActivated_spec _ _ _ (lookup_setOutlet_eq _ _ _)). }
  intros fuel. apply component_ext; [|done].
  intros x. destruct (decide (o = x)) as [<-|Hne].
  - rewrite lookup_setOutlet_eq, H. simpl. by rewrite Ha.
  - by rewrite lookup_setOutlet_ne.
Qed.

(** The outlet 1, Active with the ViewA instance 3, is detached and attached
    again with another route: its component is the instance 3 before and
    after. *)
Lemma detach_then_attach_restores_witness :
  exists σ1 σ2,
    RouterOutlet.detach 1 Scene.activeA = (Ok 3, σ1) /\
    RouterOutlet.attach 1 3 Scene.routeB σ1 = (Ok tt, σ2) /\
    RouterOutlet.isActivated 1 σ2 = (Ok true, σ2) /\
    RouterOutlet.component 2 1 σ2 = Ok (Some 3) /\
    RouterOutlet.component 2 1 Scene.activeA = Ok (Some 3).
Proof.
  destruct (detach_then_attach_restores Scene.activeA 1 _ eq_refl) as [_ Hd].
  destruct (Hd 3 eq_refl) as (σ1 & that & Hdet & _ & _ & _ & _ & _ & Hatt).
  destruct (Hatt Scene.routeB) as (σ2 & Ha & Hi & Hc).
  exists σ1, σ2.
  split; [exact Hdet|]. split; [exact Ha|]. split; [exact Hi|].
  split; [rewrite Hc|]; reflexivity.
Defined.

(** ** The queries *)

(** C6 (as the code has it): on an Inactive outlet [component] and
    [activatedRoute] throw the not-activated error, while [isActivated] does
    not throw and returns false; [activatedRouteData] never throws: it
    returns the empty object when no route is recorded and the data of the
    recorded route otherwise. *)
Theorem queries_of_an_inactive_outlet σ o this :
  outlets σ !! o = Some this ->
  (activated this = None ->
   RouterOutlet.isActivated o σ = (Ok false, σ) /\
   (forall fuel, RouterOutlet.component (S fuel) o σ = Throw NotActivatedError) /\
   RouterOutlet.activatedRoute o σ = Throw NotActivatedError) /\
  (_activatedRoute this = None ->
   RouterOutlet.activatedRouteData o σ = Ok ∅) /\
  (forall rt, _activatedRoute this = Some rt ->
   RouterOutlet.activatedRouteData o σ = Ok (data (snapshot rt))).
Proof.
  intros H. split; [|split].
  - intros Ha. split; [|split].
    + rewrite (isActivated_spec _ _ _ H), Ha. f_equal.
    + intros fuel. simpl. by rewrite H, Ha.
    + unfold RouterOutlet.activatedRoute. by rewrite H, Ha.
  - intros Hr. unfold RouterOutlet.activatedRouteData. by rewrite H, Hr.
  - intros rt Hr. unfold RouterOutlet.activatedRouteData. by rewrite H, Hr.
Qed.

(** The freshly created outlet 1 (Inactive, no route) and the outlet 1 Active
    with route A. *)
Lemma queries_of_an_inactive_outlet_witness :
  (RouterOutlet.isActivated 1 Scene.created = (Ok false, Scene.created) /\
   RouterOutlet.component 1 1 Scene.created = Throw NotActivatedError /\
   RouterOutlet.activatedRoute 1 Scene.created = Throw NotActivatedError /\
   RouterOutlet.activatedRouteData 1 Scene.created = Ok ∅) /\
  RouterOutlet.activatedRouteData 1 Scene.activeA = Ok {[ "title" := "A" ]}.
Proof.
  destruct (queries_of_an_inactive_outlet Scene.created 1 _ eq_refl)
    as ((Hi & Hc & Hr) & Hd & _); [reflexivity|].
  destruct (queries_of_an_inactive_outlet Scene.activeA 1 _ eq_refl)
    as (_ & _ & Hd').
  split; [split; [exact Hi|split; [exact (Hc 0)|split; [exact Hr|]]]|].
  - exact (Hd eq_refl).
  - exact (Hd' Scene.routeA eq_refl).
Defined.

(** C6, the claim as stated fails: [isActivated] on an Inactive outlet
    returns false instead of throwing. *)
Lemma isActivated_does_not_throw :
  activated <$> outlets Scene.created !! 1 = Some None /\
  fst (RouterOutlet.isActivated 1 Scene.created) = Ok false /\
  fst (RouterOutlet.isActivated 1 Scene.created) ≠ Throw NotActivatedError.
Proof. repeat split. discriminate. Qed.

(** ** activateWith, step by step *)

Lemma getOrCreateContext_frame g n σ r σ' :
  ChildrenOutletContexts.getOrCreateContext g n σ = (r, σ') ->
  outlets σ' = outlets σ /\ components σ' = components σ.
Proof.
  unfold ChildrenOutletContexts.getOrCreateContext.
  destruct (registries σ !! g) as [m|]; [|by intros [= <- <-]].
  destruct (m !! n); [by intros [= <- <-]|].
  by intros [= <- <-].
Qed.

(** The context of a name after [getOrCreateContext]. *)
Lemma getOrCreateContext_lookup g n σ context σ' :
  ChildrenOutletContexts.getOrCreateContext g n σ = (Ok context, σ') ->
  exists m, registries σ' !! g = Some m /\ m !! n = Some context.
Proof.
  unfold ChildrenOutletContexts.getOrCreateContext.
  destruct (registries σ !! g) as [m|] eqn:Hg; [|done].
  destruct (m !! n) as [c|] eqn:Hn.
  - intros [= <- <-]. by exists m.
  - intros [= <- <-]. eexists. split.
    + simpl. apply lookup_insert_eq.
    + apply lookup_insert_eq.
Qed.

Lemma activateWith_active fuel σ o this a rt rsv :
  outlets σ !! o = Some this ->
  activated this = Some a ->
  RouterOutlet.activateWith fuel o rt rsv σ = (Throw AlreadyActivatedError, σ).
Proof.
  intros H Ha. unfold RouterOutlet.activateWith.
  rewrite (bind_Ok _ _ _ _ _ (isActivated_spec _ _ _ H)), Ha.
  by rewrite bool_decide_eq_true_2.
Qed.

Lemma activateWith_inactive fuel σ o this rt rsv :
  outlets σ !! o = Some this ->
  activated this = None ->
  RouterOutlet.activateWith fuel o rt rsv σ =
    activateWithInactive fuel o rt rsv this σ.
Proof.
  intros H Ha. unfold RouterOutlet.activateWith, activateWithInactive.
  rewrite (bind_Ok _ _ _ _ _ (isActivated_spec _ _ _ H)), Ha.
  rewrite bool_decide_eq_false_2 by (by intros [? ?]).
  rewrite (bind_Ok _ _ _ _ _ (getOutlet_Some _ _ _ H)).
  rewrite (bind_Ok _ _ _ _ _ (updateOutlet_Some _ _ _ _ H)).
  unfold routeRecorded. rewrite Ha.
  destruct (routeConfig (_futureSnapshot rt)) as [config|]; [|done].
  assert (match rsv with Some r => r | None => resolver this end
          = default (resolver this) rsv) as -> by (by destruct rsv).
  destruct (default (resolver this) rsv (Route.component config))
    as [factory|]; [|done].
  set (σ1 := setOutlet o _ σ).
  destruct (ChildrenOutletContexts.getOrCreateContext _ _ σ1)
    as [[context|e] σ2] eqn:Hctx.
  2: { by rewrite (bind_Throw _ _ _ _ _ Hctx). }
  rewrite (bind_Ok _ _ _ _ _ Hctx).
  destruct (getOrCreateContext_frame _ _ _ _ _ Hctx) as [Hout Hcmp].
  assert (outlets σ2 !! o = Some (withActivation None (Some rt) this)) as H2.
  { rewrite Hout. apply lookup_setOutlet_eq. }
  unfold ViewContainerRef.createComponent, outletInjector.
  destruct (create factory _); [|done].
  unfold bind at 1. unfold bind at 1.
  rewrite (getOutlet_Some _ _ _ H2).
  unfold bind at 1. simpl fst. cbv beta iota zeta.
  unfold bind at 1. unfold modify at 1.
  unfold bind at 1. unfold modify at 1.
  unfold ret at 1.
  unfold ViewContainerRef.length. simpl location. simpl views.
  rewrite firstn_all, skipn_all.
  unfold fresh at 1. cbv beta iota zeta.
  rewrite (bind_Ok _ _ _ _ _ (updateOutlet_Some _ _ _ _ (lookup_setOutlet_eq _ _ _))).
  rewrite setOutlet_setOutlet.
  rewrite (bind_Ok _ _ _ _ _ (updateOutlet_Some _ _ _ _ (lookup_setOutlet_eq _ _ _))).
  rewrite setOutlet_setOutlet.
  unfold bind at 1. unfold getComponent.
  simpl components. rewrite lookup_insert_eq.
  unfold mounted, mountedOutlet, createdRef.
  destruct (ViewContainerRef.newInstance (componentType factory)); reflexivity.
Qed.

(** ** Emission *)

Lemma sameButEmitted_refl ch a : sameButEmitted ch a a.
Proof. by destruct a, ch. Qed.

Lemma sameButEmitted_sym ch a b : sameButEmitted ch a b -> sameButEmitted ch b a.
Proof. unfold sameButEmitted. intros ->. by destruct a, ch. Qed.

Lemma sameButEmitted_trans ch a b c :
  sameButEmitted ch a b -> sameButEmitted ch b c -> sameButEmitted ch a c.
Proof. unfold sameButEmitted. intros -> ->. by destruct a, ch. Qed.

Lemma sameButEmitted_record ch ev a : sameButEmitted ch a (record ch ev a).
Proof. by destruct a, ch. Qed.

Lemma sameButEmitted_host ch a b : sameButEmitted ch a b -> host b = host a.
Proof. unfold sameButEmitted. intros ->. by destruct ch. Qed.

Lemma sameButEmitted_activation ch a b :
  sameButEmitted ch a b ->
  activated b = activated a /\ _activatedRoute b = _activatedRoute a /\
  location b = location a.
Proof. unfold sameButEmitted. intros ->. by destruct ch. Qed.

Lemma evolves_refl ch σ : evolves ch σ σ.
Proof.
  repeat split. intros x. destruct (outlets σ !! x); constructor.
  apply sameButEmitted_refl.
Qed.

Lemma evolves_sym ch σ τ : evolves ch σ τ -> evolves ch τ σ.
Proof.
  intros (Hc & Hr & Hn & Ho). repeat split; try done.
  intros x. destruct (Ho x); constructor. by apply sameButEmitted_sym.
Qed.

Lemma evolves_trans ch σ τ υ : evolves ch σ τ -> evolves ch τ υ -> evolves ch σ υ.
Proof.
  intros (Hc & Hr & Hn & Ho) (Hc' & Hr' & Hn' & Ho').
  repeat split; try congruence.
  intros x. specialize (Ho x). specialize (Ho' x).
  destruct Ho as [a b Hab|]; inversion Ho' as [b' c Hbc|]; subst; constructor.
  by eapply sameButEmitted_trans.
Qed.

Lemma evolves_record ch ev o this σ :
  outlets σ !! o = Some this ->
  evolves ch σ (setOutlet o (record ch ev this) σ).
Proof.
  intros H. repeat split. intros x. simpl.
  destruct (decide (o = x)) as [<-|Hne].
  - rewrite lookup_insert_eq, H. constructor. apply sameButEmitted_record.
  - rewrite lookup_insert_ne by done.
    destruct (outlets σ !! x); constructor. apply sameButEmitted_refl.
Qed.

(** One step of [emit]. *)
Lemma emit_S fuel ch ev o σ :
  RouterOutlet.emit (S fuel) ch ev o σ =
    match outlets σ !! o with
    | None => (Throw InvalidReference, σ)
    | Some this =>
        let σ1 := setOutlet o (record ch ev this) σ in
        match host this with
        | None => (Ok tt, σ1)
        | Some p =>
            match components σ !! p with
            | None => (Throw InvalidReference, σ1)
            | Some r =>
                match instance r with
                | EmptyOutletInstance c =>
                    forEach (observers ch c)
                      (fun s => RouterOutlet.emit fuel ch ev (snd s)) σ1
                | ViewInstance _ => (Throw InvalidReference, σ1)
                end
            end
        end
    end.
Proof.
  simpl. unfold bind at 1. unfold getOutlet.
  destruct (outlets σ !! o) as [this|]; [|done].
  unfold bind at 1. unfold modify.
  destruct (host this) as [p|]; [|done].
  unfold bind at 1. unfold getComponent. simpl components.
  destruct (components σ !! p) as [r|]; [|done].
  by destruct (instance r).
Qed.

Lemma forEach_cons {A} (x : A) l f σ :
  forEach (x :: l) f σ =
    match f x σ with
    | (Ok _, σ1) => forEach l f σ1
    | (Throw e, σ1) => (Throw e, σ1)
    end.
Proof. done. Qed.

Lemma forEach_evolves {A} ch (l : list A) f :
  (forall x σ, evolves ch σ (snd (f x σ))) ->
  forall σ, evolves ch σ (snd (forEach l f σ)).
Proof.
  intros Hf. induction l as [|x l IH]; intros σ; [apply evolves_refl|].
  rewrite forEach_cons. specialize (Hf x σ).
  destruct (f x σ) as [[[]|e] σ1]; simpl in Hf; [|done].
  eapply evolves_trans; [done|apply IH].
Qed.

(** [emit] changes nothing but what the outlets emitted on its channel,
    whatever its outcome. *)
Lemma emit_evolves ch ev fuel : forall o σ,
  evolves ch σ (snd (RouterOutlet.emit fuel ch ev o σ)).
Proof.
  induction fuel as [|fuel IH]; intros o σ; [apply evolves_refl|].
  rewrite emit_S.
  destruct (outlets σ !! o) as [this|] eqn:Ho; [|apply evolves_refl].
  pose proof (evolves_record ch ev o this σ Ho) as H1.
  cbv zeta. destruct (host this) as [p|]; [|done].
  destruct (components σ !! p) as [r|]; [|done].
  destruct (instance r) as [|c]; [done|].
  eapply evolves_trans; [done|].
  apply forEach_evolves. intros s τ. apply IH.
Qed.

(** Whether [emit] returns depends on the hosts and the relays, not on what
    was emitted before. *)
Lemma forEach_status {A} ch (l : list A) f :
  (forall x σ, evolves ch σ (snd (f x σ))) ->
  (forall x σ τ, evolves ch σ τ -> fst (f x σ) = fst (f x τ)) ->
  forall σ τ, evolves ch σ τ -> fst (forEach l f σ) = fst (forEach l f τ).
Proof.
  intros Hev Hst. induction l as [|x l IH]; intros σ τ H; [done|].
  rewrite !forEach_cons.
  pose proof (Hst x σ τ H) as Hx.
  pose proof (Hev x σ) as Hσ. pose proof (Hev x τ) as Hτ.
  destruct (f x σ) as [[[]|e] σ1], (f x τ) as [[[]|e'] τ1];
    simpl in *; try done.
  apply IH.
  eapply evolves_trans; [apply evolves_sym, Hσ|].
  eapply evolves_trans; [exact H|exact Hτ].
Qed.

Lemma emit_status ch ev fuel : forall o σ τ,
  evolves ch σ τ ->
  fst (RouterOutlet.emit fuel ch ev o σ) = fst (RouterOutlet.emit fuel ch ev o τ).
Proof.
  induction fuel as [|fuel IH]; intros o σ τ H; [done|].
  rewrite !emit_S.
  destruct H as (Hc & Hr & Hn & Ho). specialize (Ho o) as Hoo.
  destruct Hoo as [a b Hab|]; [|done].
  cbv zeta. rewrite (sameButEmitted_host ch _ _ Hab), Hc.
  destruct (host a) as [p|]; [|done].
  destruct (components σ !! p) as [r|]; [|done].
  destruct (instance r) as [|c]; [done|].
  apply (forEach_status ch).
  - intros s υ. apply emit_evolves.
  - intros s υ1 υ2 Hυ. by apply IH.
  - repeat split; try done. intros x. simpl.
    destruct (decide (o = x)) as [<-|Hne].
    + rewrite !lookup_insert_eq. constructor.
      eapply sameButEmitted_trans; [apply sameButEmitted_sym, sameButEmitted_record|].
      eapply sameButEmitted_trans; [exact Hab|apply sameButEmitted_record].
    + rewrite !lookup_insert_ne by done. apply Ho.
Qed.

(** More fuel does not change an emission that returned. *)
Lemma forEach_mono {A} (l : list A) (f g : A -> M unit) :
  (forall x σ σ', f x σ = (Ok tt, σ') -> g x σ = (Ok tt, σ')) ->
  forall σ σ', forEach l f σ = (Ok tt, σ') -> forEach l g σ = (Ok tt, σ').
Proof.
  intros Hfg. induction l as [|x l IH]; intros σ σ'; [done|].
  rewrite !forEach_cons.
  destruct (f x σ) as [[[]|e] σ1] eqn:Hf; [|done].
  rewrite (Hfg _ _ _ Hf). apply IH.
Qed.

Lemma emit_mono ch ev fuel : forall o σ σ',
  RouterOutlet.emit fuel ch ev o σ = (Ok tt, σ') ->
  RouterOutlet.emit (S fuel) ch ev o σ = (Ok tt, σ').
Proof.
  induction fuel as [|fuel IH]; intros o σ σ'; [done|].
  rewrite (emit_S (S fuel)), (emit_S fuel).
  destruct (outlets σ !! o) as [this|]; [|done].
  cbv zeta. destruct (host this) as [p|]; [|done].
  destruct (components σ !! p) as [r|]; [|done].
  destruct (instance r) as [|c]; [done|].
  apply forEach_mono. intros s τ τ'. apply IH.
Qed.

Lemma emit_mono_le ch ev fuel fuel' o σ σ' :
  fuel <= fuel' ->
  RouterOutlet.emit fuel ch ev o σ = (Ok tt, σ') ->
  RouterOutlet.emit fuel' ch ev o σ = (Ok tt, σ').
Proof.
  induction 1 as [|k Hle IH]; [done|].
  intros H. by apply emit_mono, IH.
Qed.

(** The least fuel with which an emission returns. *)
Lemma emit_least ch ev fuel : forall o σ σ',
  RouterOutlet.emit fuel ch ev o σ = (Ok tt, σ') ->
  exists least,
    RouterOutlet.emit least ch ev o σ = (Ok tt, σ') /\
    forall m, m < least -> fst (RouterOutlet.emit m ch ev o σ) ≠ Ok tt.
Proof.
  induction fuel as [|fuel IH]; intros o σ σ' H; [done|].
  destruct (RouterOutlet.emit fuel ch ev o σ) as [[[]|e] σ1] eqn:Hk.
  - apply IH. rewrite Hk. rewrite (emit_mono _ _ _ _ _ _ Hk) in H. done.
  - exists (S fuel). split; [done|].
    intros m Hm Hok.
    destruct (RouterOutlet.emit m ch ev o σ) as [[[]|e'] σ2] eqn:Hm'; [|done].
    rewrite (emit_mono_le ch ev m fuel o σ σ2) in Hk; [done|lia|done].
Qed.

(** An emission that returned reached, exactly once, the outlet it started
    from, and did not reach an outlet from which no emission returns with
    less fuel. *)
Lemma emit_log ch ev fuel : forall o σ σ' x,
  RouterOutlet.emit fuel ch ev o σ = (Ok tt, σ') ->
  (forall m, m < fuel -> fst (RouterOutlet.emit m ch ev x σ) ≠ Ok tt) ->
  emittedAt ch σ' x =
    (fun l => l ++ if decide (x = o) then [ev] else []) <$> emittedAt ch σ x.
Proof.
  induction fuel as [|fuel IH]; intros o σ σ' x; [done|].
  rewrite emit_S. intros H Hx.
  destruct (outlets σ !! o) as [this|] eqn:Ho; [|done].
  cbv zeta in H.
  set (σ1 := setOutlet o (record ch ev this) σ) in *.
  assert (emittedAt ch σ1 x =
            (fun l => l ++ if decide (x = o) then [ev] else [])
              <$> emittedAt ch σ x) as H1.
  { unfold emittedAt, σ1. destruct (decide (x = o)) as [->|Hne].
    - rewrite lookup_setOutlet_eq, Ho. simpl. f_equal. by destruct ch.
    - rewrite lookup_setOutlet_ne by done.
      destruct (outlets σ !! x); simpl; [|done]. by rewrite app_nil_r. }
  destruct (host this) as [p|]; [|by injection H as <-].
  destruct (components σ !! p) as [r|]; [|done].
  destruct (instance r) as [|c]; [done|].
  rewrite <- H1.
  assert (evolves ch σ σ1) as Hev by (by apply evolves_record).
  clearbody σ1. clear H1 Ho.
  revert σ1 H Hev. induction (observers ch c) as [|s l IHl]; intros τ H Hev.
  { by injection H as <-. }
  rewrite forEach_cons in H.
  destruct (RouterOutlet.emit fuel ch ev s.2 τ) as [[[]|e] τ1] eqn:Hs; [|done].
  assert (fst (RouterOutlet.emit fuel ch ev s.2 σ) = Ok tt) as Hσ.
  { rewrite (emit_status ch ev fuel _ _ _ Hev), Hs. done. }
  assert (x ≠ s.2) as Hne.
  { intros ->. by apply (Hx fuel); [lia|]. }
  rewrite (IHl τ1 H).
  - rewrite (IH _ _ _ x Hs).
    + rewrite decide_False by done.
      unfold emittedAt. destruct (outlets τ !! x); simpl; [|done].
      by rewrite app_nil_r.
    + intros m Hm. rewrite <- (emit_status ch ev m _ _ _ Hev).
      apply Hx. lia.
  - eapply evolves_trans; [exact Hev|].
    pose proof (emit_evolves ch ev fuel s.2 τ) as Hτ. by rewrite Hs in Hτ.
Qed.

(** An emission that returned put exactly one value, the emitted one, on the
    channel of the outlet it started from. *)
Lemma emit_once ch ev fuel o σ σ' :
  RouterOutlet.emit fuel ch ev o σ = (Ok tt, σ') ->
  emittedAt ch σ' o = (fun l => l ++ [ev]) <$> emittedAt ch σ o.
Proof.
  intros H. destruct (emit_least _ _ _ _ _ _ H) as (least & Hl & Hmin).
  rewrite (emit_log ch ev least o σ σ' o Hl Hmin).
  by rewrite decide_True.
Qed.

(** ** A successful activateWith *)

(** All that a returned [activateWith] tells. *)
Lemma activateWith_Ok fuel σ o this rt rsv σ' :
  outlets σ !! o = Some this ->
  RouterOutlet.activateWith fuel o rt rsv σ = (Ok tt, σ') ->
  activated this = None /\
  exists config factory context σ2 that r,
    routeConfig (_futureSnapshot rt) = Some config /\
    default (resolver this) rsv (Route.component config) = Some factory /\
    ChildrenOutletContexts.getOrCreateContext (parentContexts this) (name this)
      (setOutlet o (routeRecorded rt this) σ) = (Ok context, σ2) /\
    create factory (outletInjector rt context this) = true /\
    registries σ' = registries σ2 /\
    outlets σ' !! o = Some that /\
    components σ' !! nextId σ2 = Some r /\
    refInjector r = Some (outletInjector rt context this) /\
    destroyed r = false /\
    match componentType factory with
    | ViewType s =>
        instance r = ViewInstance s /\
        that = record ActivateChannel (Some (nextId σ2))
                 (mountedOutlet (nextId σ2) rt this)
    | EmptyOutletComponentType =>
        instance r = EmptyOutletInstance (relayed (S (nextId σ2)) o) /\
        that = mountedOutlet (nextId σ2) rt this
    end.
Proof.
  intros H Hrun.
  destruct (activated this) as [a0|] eqn:Ha.
  { by rewrite (activateWith_active _ _ _ _ _ _ _ H Ha) in Hrun. }
  split; [done|].
  rewrite (activateWith_inactive _ _ _ _ _ _ H Ha) in Hrun.
  unfold activateWithInactive in Hrun.
  destruct (routeConfig (_futureSnapshot rt)) as [config|] eqn:Hcfg; [|done].
  destruct (default (resolver this) rsv (Route.component config))
    as [factory|] eqn:Hfac; [|done].
  destruct (ChildrenOutletContexts.getOrCreateContext _ _ _)
    as [[context|e] σ2] eqn:Hctx; [|done].
  destruct (create factory _) eqn:Hcreate; [|done].
  exists config, factory, context, σ2.
  destruct (componentType factory) as [|s] eqn:Ht; simpl in Hrun.
  - injection Hrun as <-.
    exists (mountedOutlet (nextId σ2) rt this),
      (ComponentRef.withInstance
         (EmptyOutletInstance (relayed (S (nextId σ2)) o))
         (createdRef factory (outletInjector rt context this))).
    do 4 (split; [done|]). split; [done|].
    split; [simpl; apply lookup_insert_eq|].
    split; [simpl; apply lookup_insert_eq|]. done.
  - pose proof (emit_evolves ActivateChannel (Some (nextId σ2)) fuel o
                  (mounted o rt factory (outletInjector rt context this) this σ2))
      as (Hc & Hr & _ & Ho).
    pose proof (emit_once _ _ _ _ _ _ Hrun) as Honce.
    rewrite Hrun in Hc, Hr, Ho. simpl snd in *.
    specialize (Ho o). unfold emittedAt in Honce.
    unfold mounted in Ho, Honce. rewrite lookup_setOutlet_eq in Ho, Honce.
    inversion Ho as [a that Hthat Ha' Hb'|]. subst a.
    rewrite <- Hb' in Honce. simpl in Honce. injection Honce as Honce.
    exists that, (createdRef factory (outletInjector rt context this)).
    do 4 (split; [done|]). split; [done|]. split; [done|].
    split; [rewrite Hc; unfold mounted; simpl; apply lookup_insert_eq|].
    split; [done|]. split; [done|].
    split; [simpl; by rewrite Ht|].
    rewrite Hthat. simpl in Honce. simpl. by rewrite Honce.
Qed.

(** The relay of a placeholder that [activateWith] produced: an event the
    placeholder emits is emitted by the activating outlet. *)
Lemma relayed_emit sink o fuel ch ev σ :
  EmptyOutletComponent.emit (RouterOutlet.emit fuel ch ev) ch (relayed sink o) σ =
    RouterOutlet.emit fuel ch ev o σ.
Proof.
  unfold EmptyOutletComponent.emit.
  assert (observers ch (relayed sink o) = [(sink, o)]) as -> by (by destruct ch).
  rewrite forEach_cons. simpl.
  by destruct (RouterOutlet.emit fuel ch ev o σ) as [[[]|e] σ1].
Qed.

(** [activateWith] returns on an Inactive outlet that no placeholder hosts,
    when the route has a configuration, the resolver knows the component, the
    parent scope exists and the factory can build the view. *)
Lemma activateWith_returns fuel σ o this rt rsv config factory :
  outlets σ !! o = Some this ->
  activated this = None ->
  host this = None ->
  routeConfig (_futureSnapshot rt) = Some config ->
  default (resolver this) rsv (Route.component config) = Some factory ->
  is_Some (registries σ !! parentContexts this) ->
  (forall inj, create factory inj = true) ->
  exists σ', RouterOutlet.activateWith (S fuel) o rt rsv σ = (Ok tt, σ').
Proof.
  intros H Ha Hh Hcfg Hfac [scope Hs] Hcreate.
  rewrite (activateWith_inactive _ _ _ _ _ _ H Ha).
  unfold activateWithInactive. rewrite Hcfg, Hfac.
  destruct (ChildrenOutletContexts.getOrCreateContext _ _ _)
    as [[context|e] σ2] eqn:Hctx.
  2: { unfold ChildrenOutletContexts.getOrCreateContext in Hctx.
       simpl registries in Hctx. rewrite Hs in Hctx.
       by destruct (scope !! name this). }
  rewrite Hcreate.
  destruct (ViewContainerRef.newInstance (componentType factory));
    [|by eexists].
  rewrite emit_S. unfold mounted. rewrite lookup_setOutlet_eq.
  cbv zeta. simpl host. rewrite Hh. by eexists.
Qed.

(** C4: [activateWith(route, resolver)] returns on an Inactive outlet whose
    route, resolver, scope and factory are in order.  When it returns, it
    resolved the component of the route's configuration with the explicit
    resolver when there is one and with the outlet's own otherwise, created
    the view with the [OutletInjector] of the route over the injector of the
    container, and put it after the views the container already held.  When
    the instance is not a placeholder, the outlet emitted exactly one
    activate event, the instance, and no deactivate event.  When it is a
    placeholder, the outlet emitted nothing, and whatever the placeholder
    emits from then on, on either channel, the outlet emits. *)
Theorem activateWith_creates_and_notifies fuel σ o this rt rsv :
  outlets σ !! o = Some this ->
  (forall config factory,
     activated this = None ->
     host this = None ->
     routeConfig (_futureSnapshot rt) = Some config ->
     match rsv with
     | Some explicit => explicit
     | None => resolver this
     end (Route.component config) = Some factory ->
     is_Some (registries σ !! parentContexts this) ->
     (forall inj, create factory inj = true) ->
     exists σ', RouterOutlet.activateWith (S fuel) o rt rsv σ = (Ok tt, σ')) /\
  (forall σ',
     RouterOutlet.activateWith fuel o rt rsv σ = (Ok tt, σ') ->
     exists config factory a r that inj,
       routeConfig (_futureSnapshot rt) = Some config /\
       match rsv with
       | Some explicit => explicit
       | None => resolver this
       end (Route.component config) = Some factory /\
       outlets σ' !! o = Some that /\
       components σ' !! a = Some r /\
       activated that = Some a /\
       _activatedRoute that = Some rt /\
       views (location that) = views (location this) ++ [a] /\
       refInjector r = Some inj /\
       route inj = rt /\
       parent inj = injector (location this) /\
       deactivateEvents that = deactivateEvents this /\
       match componentType factory with
       | ViewType s =>
           instance r = ViewInstance s /\
           activateEvents that = activateEvents this ++ [Some a]
       | EmptyOutletComponentType =>
           activateEvents that = activateEvents this /\
           exists c,
             instance r = EmptyOutletInstance c /\
             forall ch fuel' ev τ,
               EmptyOutletComponent.emit (RouterOutlet.emit fuel' ch ev) ch c τ =
                 RouterOutlet.emit fuel' ch ev o τ
       end).
Proof.
  intros H. split.
  { intros config factory Ha Hh Hcfg Hfac Hs Hcreate.
    by eapply activateWith_returns. }
  intros σ' Hrun.
  destruct (activateWith_Ok _ _ _ _ _ _ _ H Hrun)
    as (Ha & config & factory & context & σ2 & that & r & Hcfg & Hfac & Hctx
        & Hcreate & Hreg & Hthat & Hr & Hinj & Hd & Hinst).
  exists config, factory, (nextId σ2), r, that, (outletInjector rt context this).
  split; [done|]. split; [by destruct rsv|]. split; [done|]. split; [done|].
  destruct (componentType factory) as [|s]; destruct Hinst as [Hi ->].
  - repeat split; try done.
    exists (relayed (S (nextId σ2)) o). split; [done|].
    intros ch fuel' ev τ. apply relayed_emit.
  - repeat split; done.
Qed.

(** The fresh outlet 1 activates route A: the call returns, the ViewA
    instance 3 is created and emitted once. *)
Lemma activateWith_creates_and_notifies_witness :
  (exists σ', RouterOutlet.activateWith 4 1 Scene.routeA None Scene.created
              = (Ok tt, σ')) /\
  exists that r,
    outlets Scene.activeA !! 1 = Some that /\
    components Scene.activeA !! 3 = Some r /\
    activated that = Some 3 /\
    views (location that) = [3] /\
    instance r = ViewInstance "ViewA" /\
    activateEvents that = [Some 3] /\
    deactivateEvents that = [].
Proof.
  destruct (activateWith_creates_and_notifies 4 Scene.created 1 Scene.freshOutlet
              Scene.routeA None eq_refl) as [_ Hok].
  destruct (activateWith_creates_and_notifies 3 Scene.created 1 Scene.freshOutlet
              Scene.routeA None eq_refl) as [Hreturns _].
  split.
  { apply (Hreturns _ (Scene.factoryOf (ViewType "ViewA"))
             eq_refl eq_refl eq_refl eq_refl); [eexists|intros inj]; reflexivity. }
  destruct (Hok Scene.activeA eq_refl)
    as (config & factory & a & r & that & inj & Hcfg & Hfac & Hthat & Hr & Ha
        & _ & Hv & _ & _ & _ & Hde & Hinst).
  injection Hcfg as <-. injection Hfac as <-.
  destruct Hinst as [Hi Hact].
  assert (Some a = Some 3) as [= ->].
  { rewrite <- Ha. by injection Hthat as <-. }
  exists that, r. repeat split; assumption.
Defined.

(** C8: the injector of the view that a successful [activateWith] created
    answers the [ActivatedRoute] token with the route of the activation and
    the [ChildrenOutletContexts] token with the scope nested under the
    outlet's name in its parent scope, whatever [notFoundValue] is; every
    other token goes to the injector of the container with the same
    [notFoundValue], and its answer is returned as it is. *)
Theorem outletInjector_overrides_and_delegates fuel σ o this rt rsv σ' :
  outlets σ !! o = Some this ->
  RouterOutlet.activateWith fuel o rt rsv σ = (Ok tt, σ') ->
  exists a r inj scope context,
    activated <$> outlets σ' !! o = Some (Some a) /\
    components σ' !! a = Some r /\
    refInjector r = Some inj /\
    registries σ' !! parentContexts this = Some scope /\
    scope !! name this = Some context /\
    forall notFoundValue,
      OutletInjector.get inj ActivatedRouteToken notFoundValue
        = Ok (RouteValue rt) /\
      OutletInjector.get inj ChildrenOutletContextsToken notFoundValue
        = Ok (ContextsValue (ctxChildren context)) /\
      forall n,
        OutletInjector.get inj (OtherToken n) notFoundValue
          = injector (location this) (OtherToken n) notFoundValue.
Proof.
  intros H Hrun.
  destruct (activateWith_Ok _ _ _ _ _ _ _ H Hrun)
    as (Ha & config & factory & context & σ2 & that & r & Hcfg & Hfac & Hctx
        & Hcreate & Hreg & Hthat & Hr & Hinj & Hd & Hinst).
  destruct (getOrCreateContext_lookup _ _ _ _ _ Hctx) as (scope & Hs & Hn).
  exists (nextId σ2), r, (outletInjector rt context this), scope, context.
  split.
  { rewrite Hthat. simpl. f_equal.
    destruct (componentType factory); by destruct Hinst as [_ ->]. }
  split; [done|]. split; [done|]. split; [by rewrite Hreg|]. split; [done|].
  done.
Qed.

(** The view 3 created for route A in the outlet 1: its injector knows the
    route and the nested scope 2, and hands other tokens to the container's
    injector. *)
Lemma outletInjector_overrides_and_delegates_witness :
  exists r inj,
    components Scene.activeA !! 3 = Some r /\
    refInjector r = Some inj /\
    OutletInjector.get inj ActivatedRouteToken None = Ok (RouteValue Scene.routeA) /\
    OutletInjector.get inj ChildrenOutletContextsToken None = Ok (ContextsValue 2) /\
    OutletInjector.get inj (OtherToken 7) (Some (OtherValue 0)) = Ok (OtherValue 0) /\
    OutletInjector.get inj (OtherToken 7) None = Throw InjectorError.
Proof.
  destruct (outletInjector_overrides_and_delegates 4 Scene.created 1
              Scene.freshOutlet Scene.routeA None Scene.activeA eq_refl eq_refl)
    as (a & r & inj & scope & context & Ha & Hr & Hinj & Hs & Hn & Hget).
  injection Ha as <-. injection Hs as <-. injection Hn as <-.
  exists r, inj. split; [exact Hr|]. split; [exact Hinj|].
  split; [apply (Hget None)|]. split; [apply (Hget None)|].
  split.
  - destruct (Hget (Some (OtherValue 0))) as (_ & _ & Ho). rewrite Ho. reflexivity.
  - destruct (Hget None) as (_ & _ & Ho). rewrite Ho. reflexivity.
Defined.

(** ** A failed activateWith *)

Lemma forEach_throws {A} (P : Error -> Prop) (l : list A) (f : A -> M unit) :
  (forall x σ e σ', f x σ = (Throw e, σ') -> P e) ->
  forall σ e σ', forEach l f σ = (Throw e, σ') -> P e.
Proof.
  intros Hf. induction l as [|x l IH]; intros σ e σ'; [done|].
  rewrite forEach_cons.
  destruct (f x σ) as [[[]|e1] σ1] eqn:Hx.
  - apply IH.
  - intros [= <- <-]. by eapply Hf.
Qed.

(** An emission fails only for want of stack or on a dangling identity. *)
Lemma emit_throws ch ev fuel : forall o σ e σ',
  RouterOutlet.emit fuel ch ev o σ = (Throw e, σ') ->
  e = RangeError \/ e = InvalidReference.
Proof.
  induction fuel as [|fuel IH]; intros o σ e σ'.
  { intros [= <- <-]. by left. }
  rewrite emit_S.
  destruct (outlets σ !! o) as [this|]; [|intros [= <- <-]; by right].
  cbv zeta. destruct (host this) as [p|]; [|done].
  destruct (components σ !! p) as [r|]; [|intros [= <- <-]; by right].
  destruct (instance r) as [|c]; [intros [= <- <-]; by right|].
  apply (forEach_throws (fun e => e = RangeError \/ e = InvalidReference)).
  intros s τ e' τ'. apply IH.
Qed.

(** C1 (as the code has it): [activateWith] on an Active outlet throws the
    already-activated error and leaves the store as it was, the outlet still
    Active.  An [activateWith] that throws while reading the route's
    configuration, resolving the component factory or creating the view
    started from an Inactive outlet and leaves it with no activated view, no
    view added to the container and nothing emitted, but with the supplied
    route already recorded; no component ref is touched. *)
Theorem failed_activateWith fuel σ o this rt rsv :
  outlets σ !! o = Some this ->
  (is_Some (activated this) ->
   RouterOutlet.activateWith fuel o rt rsv σ = (Throw AlreadyActivatedError, σ)) /\
  (forall e σ',
     RouterOutlet.activateWith fuel o rt rsv σ = (Throw e, σ') ->
     e = TypeError \/ e = NoComponentFactoryError \/ e = InstantiationError ->
     activated this = None /\
     outlets σ' = <[o := withActivation None (Some rt) this]> (outlets σ) /\
     components σ' = components σ).
Proof.
  intros H. split.
  { intros [a Ha]. by eapply activateWith_active. }
  intros e σ' Hrun He.
  destruct (activated this) as [a|] eqn:Ha.
  { rewrite (activateWith_active _ _ _ _ _ _ _ H Ha) in Hrun.
    injection Hrun as <- <-. by destruct He as [|[|]]. }
  split; [done|].
  rewrite (activateWith_inactive _ _ _ _ _ _ H Ha) in Hrun.
  unfold activateWithInactive, routeRecorded in Hrun. rewrite Ha in Hrun.
  destruct (routeConfig (_futureSnapshot rt)) as [config|];
    [|by injection Hrun as <- <-].
  destruct (default (resolver this) rsv (Route.component config))
    as [factory|]; [|by injection Hrun as <- <-].
  destruct (ChildrenOutletContexts.getOrCreateContext _ _ _)
    as [[context|e'] σ2] eqn:Hctx.
  - destruct (getOrCreateContext_frame _ _ _ _ _ Hctx) as [Hout Hcmp].
    destruct (create factory _); [|by injection Hrun as <- <-].
    destruct (ViewContainerRef.newInstance (componentType factory)); [|done].
    apply emit_throws in Hrun. by destruct Hrun as [->| ->], He as [|[|]].
  - injection Hrun as <- <-.
    unfold ChildrenOutletContexts.getOrCreateContext in Hctx.
    destruct (registries _ !! _) as [m|].
    + by destruct (m !! name this).
    + injection Hctx as <- <-. by destruct He as [|[|]].
Qed.

(** The Active outlet 1 refuses a second activation; the fresh outlet 1,
    activated with a resolver that knows no factory, keeps the route. *)
Lemma failed_activateWith_witness :
  RouterOutlet.activateWith 4 1 Scene.routeB None Scene.activeA
    = (Throw AlreadyActivatedError, Scene.activeA) /\
  outlets Scene.abortedA
    = <[1 := withActivation None (Some Scene.routeA) Scene.freshOutlet]>
        (outlets Scene.created).
Proof.
  split.
  - refine (proj1 (failed_activateWith 4 Scene.activeA 1 _ Scene.routeB None
                     eq_refl) _).
    eexists. reflexivity.
  - refine (proj1 (proj2 (proj2 (failed_activateWith 4 Scene.created 1
                     Scene.freshOutlet Scene.routeA (Some Scene.resolveNone)
                     eq_refl) NoComponentFactoryError Scene.abortedA eq_refl _))).
    right. left. reflexivity.
Defined.

(** C1, the claim as stated fails: an activation that finds no component
    factory throws and leaves the route recorded in the outlet, which held
    none before. *)
Lemma failed_activateWith_keeps_the_route :
  _activatedRoute <$> outlets Scene.created !! 1 = Some None /\
  fst (RouterOutlet.activateWith 4 1 Scene.routeA (Some Scene.resolveNone)
         Scene.created) = Throw NoComponentFactoryError /\
  _activatedRoute
    <$> outlets (snd (RouterOutlet.activateWith 4 1 Scene.routeA
                        (Some Scene.resolveNone) Scene.created)) !! 1
    = Some (Some Scene.routeA) /\
  snd (RouterOutlet.activateWith 4 1 Scene.routeA (Some Scene.resolveNone)
         Scene.created) ≠ Scene.created.
Proof.
  split; [reflexivity|]. split; [reflexivity|]. split; [reflexivity|].
  intros Heq.
  assert (_activatedRoute <$> outlets Scene.created !! 1
          = Some (Some Scene.routeA)) as Hr by (by rewrite <- Heq).
  discriminate Hr.
Qed.

(** ** deactivate *)

(** [component] never answers with a placeholder: it answers with what the
    placeholder's nested outlet answers, or with null. *)
Lemma component_not_placeholder fuel : forall o σ c,
  RouterOutlet.component fuel o σ = Ok c ->
  RouterOutlet.isEmptyOutletComponent σ c = false.
Proof.
  induction fuel as [|fuel IH]; intros o σ c; [done|].
  simpl.
  destruct (outlets σ !! o) as [this|]; [|done].
  destruct (activated this) as [a|]; [|done].
  destruct (components σ !! a) as [r|] eqn:Hr; [|done].
  destruct (instance r) as [s|p] eqn:Hi.
  - intros [= <-]. simpl. by rewrite Hr, Hi.
  - unfold EmptyOutletComponent.component.
    destruct (outlet p) as [o'|]; [apply IH|]. by intros [= <-].
Qed.

Lemma isEmptyOutletComponent_destroyed a r c σ :
  components σ !! a = Some r ->
  RouterOutlet.isEmptyOutletComponent (setComponent a (destroyedRef r) σ) c
    = RouterOutlet.isEmptyOutletComponent σ c.
Proof.
  intros Hr. destruct c as [x|]; [|done]. simpl.
  destruct (decide (a = x)) as [<-|Hne].
  - rewrite lookup_insert_eq, Hr. simpl. by destruct (instance r).
  - by rewrite lookup_insert_ne.
Qed.

(** [deactivate] of an Active outlet, step by step: the guard before the
    emission always lets it through. *)
Lemma deactivate_active fuel σ o this a :
  outlets σ !! o = Some this ->
  activated this = Some a ->
  RouterOutlet.deactivate fuel o σ =
    match RouterOutlet.component fuel o σ with
    | Throw e => (Throw e, σ)
    | Ok c =>
        match components σ !! a with
        | None => (Throw InvalidReference, σ)
        | Some r =>
            RouterOutlet.emit fuel DeactivateChannel c o
              (deactivatedStore o a this r σ)
        end
    end.
Proof.
  intros H Ha. unfold RouterOutlet.deactivate.
  rewrite (bind_Ok _ _ _ _ _ (getOutlet_Some _ _ _ H)), Ha.
  unfold bind at 1. unfold lift.
  destruct (RouterOutlet.component fuel o σ) as [c|e] eqn:Hc; [|done].
  unfold ComponentRef.destroy.
  unfold bind at 1. unfold bind at 1. unfold getComponent.
  destruct (components σ !! a) as [r|] eqn:Hr; [|done].
  unfold bind at 1. unfold modify at 1.
  rewrite (updateOutlet_Some o _ this) by done.
  rewrite (bind_Ok _ _ _ _ _ (updateOutlet_Some _ _ _ _ (lookup_setOutlet_eq _ _ _))).
  rewrite setOutlet_setOutlet.
  unfold bind at 1. unfold gets.
  assert (RouterOutlet.isEmptyOutletComponent
            (setOutlet o
               (withActivation None None
                  (withViews (filter (fun v => v ≠ a) (views (location this))) this))
               (setComponent a
                  {| instance :=
                       match instance r with
                       | ViewInstance s => ViewInstance s
                       | EmptyOutletInstance p =>
                           EmptyOutletInstance (EmptyOutletComponent.ngOnDestroy p)
                       end;
                     refInjector := refInjector r;
                     destroyed := true |} σ)) c = false) as ->.
  { change (RouterOutlet.isEmptyOutletComponent
              (setComponent a (destroyedRef r) σ) c = false).
    rewrite (isEmptyOutletComponent_destroyed _ _ _ _ Hr).
    by eapply component_not_placeholder. }
  done.
Qed.

Lemma deactivate_inactive fuel σ o this :
  outlets σ !! o = Some this ->
  activated this = None ->
  RouterOutlet.deactivate fuel o σ = (Ok tt, σ).
Proof.
  intros H Ha. unfold RouterOutlet.deactivate.
  by rewrite (bind_Ok _ _ _ _ _ (getOutlet_Some _ _ _ H)), Ha.
Qed.

(** A [deactivate] that returned on an Active outlet destroyed the view,
    cleared the activation and emitted the component once, placeholder or
    not. *)
Lemma deactivate_Ok fuel σ o this a σ' :
  outlets σ !! o = Some this ->
  activated this = Some a ->
  RouterOutlet.deactivate fuel o σ = (Ok tt, σ') ->
  exists c r,
    RouterOutlet.component fuel o σ = Ok c /\
    components σ !! a = Some r /\
    components σ' = <[a := destroyedRef r]> (components σ) /\
    outlets σ' !! o =
      Some (record DeactivateChannel c (deactivatedOutlet a this)).
Proof.
  intros H Ha Hrun. rewrite (deactivate_active _ _ _ _ _ H Ha) in Hrun.
  destruct (RouterOutlet.component fuel o σ) as [c|e]; [|done].
  destruct (components σ !! a) as [r|]; [|done].
  exists c, r. split; [done|]. split; [done|].
  pose proof (emit_evolves DeactivateChannel c fuel o
                (deactivatedStore o a this r σ)) as (Hc & _ & _ & Ho).
  pose proof (emit_once _ _ _ _ _ _ Hrun) as Honce.
  rewrite Hrun in Hc, Ho. simpl snd in *.
  split; [done|].
  specialize (Ho o). unfold emittedAt, deactivatedStore in Ho, Honce.
  rewrite lookup_setOutlet_eq in Ho, Honce.
  inversion Ho as [x that Hthat Hx Hb|]. subst x.
  rewrite <- Hb in Honce. simpl in Honce. injection Honce as Honce.
  f_equal. rewrite Hthat. simpl in Honce. simpl. by rewrite Honce.
Qed.

(** C2 on the code: the outlet 1 is Active with the placeholder 3, whose
    nested outlet 5 is Active with the ViewA instance 7.  [component] unwraps
    the placeholder to 7, and [deactivate] destroys the placeholder, clears
    the activation and emits 7 on the outlet's own deactivate channel, where
    nothing had been emitted: the emission is not suppressed.  With the
    placeholder's nested reference still unset, [deactivate] emits null.  With
    the nested outlet set and Inactive, [deactivate] throws and leaves the
    outlet Active, its view not destroyed. *)
Theorem deactivate_emits_for_a_placeholder :
  ((instanceofEmptyOutletComponent ∘ instance)
     <$> components Scene.nestedActive !! 3 = Some true /\
   activated <$> outlets Scene.nestedActive !! 1 = Some (Some 3) /\
   deactivateEvents <$> outlets Scene.nestedActive !! 1 = Some [] /\
   RouterOutlet.component 4 1 Scene.nestedActive = Ok (Some 7) /\
   fst (RouterOutlet.deactivate 4 1 Scene.nestedActive) = Ok tt /\
   let σ' := snd (RouterOutlet.deactivate 4 1 Scene.nestedActive) in
   destroyed <$> components σ' !! 3 = Some true /\
   activated <$> outlets σ' !! 1 = Some None /\
   _activatedRoute <$> outlets σ' !! 1 = Some None /\
   deactivateEvents <$> outlets σ' !! 1 = Some [Some 7]) /\
  (activated <$> outlets Scene.activeEmpty !! 1 = Some (Some 3) /\
   fst (RouterOutlet.deactivate 4 1 Scene.activeEmpty) = Ok tt /\
   deactivateEvents
     <$> outlets (snd (RouterOutlet.deactivate 4 1 Scene.activeEmpty)) !! 1
     = Some [None]) /\
  (activated <$> outlets Scene.nestedResolved !! 1 = Some (Some 3) /\
   RouterOutlet.deactivate 4 1 Scene.nestedResolved
     = (Throw NotActivatedError, Scene.nestedResolved)).
Proof. repeat split. Qed.

(** ** The activation invariant *)

Lemma evolves_activation ch σ τ x :
  evolves ch σ τ -> activation τ x = activation σ x.
Proof.
  intros (_ & _ & _ & Ho). unfold activation.
  destruct (Ho x) as [a b Hab|]; [|done].
  simpl. destruct (sameButEmitted_activation ch _ _ Hab) as (-> & -> & _). done.
Qed.



(** *** What an operation leaves of the other outlets *)





(** [ngOnInit], step by step. *)
Lemma ngOnInit_spec fuel σ o this :
  outlets σ !! o = Some this ->
  RouterOutlet.ngOnInit fuel o σ =
    match activated this with
    | Some _ => (Ok tt, σ)
    | None =>
        match registries σ !! parentContexts this with
        | None => (Throw InvalidReference, σ)
        | Some scope =>
            match scope !! name this with
            | None => (Ok tt, σ)
            | Some context =>
                match ctxRoute context with
                | None => (Ok tt, σ)
                | Some rt =>
                    match ctxAttachRef context with
                    | Some ref => RouterOutlet.attach o ref rt σ
                    | None =>
                        RouterOutlet.activateWith fuel o rt (ctxResolver context) σ
                    end
                end
            end
        end
    end.
Proof.
  intros H. unfold RouterOutlet.ngOnInit.
  rewrite (bind_Ok _ _ _ _ _ (getOutlet_Some _ _ _ H)).
  destruct (activated this); [done|].
  unfold bind, ChildrenOutletContexts.getContext.
  destruct (registries σ !! parentContexts this) as [scope|]; [|done].
  destruct (scope !! name this) as [context|]; [|done].
  destruct (ctxRoute context); [|done].
  by destruct (ctxAttachRef context).
Qed.



(** *** What an operation leaves of its own outlet *)

Lemma activateWith_inactive_throws fuel σ o this rt rsv e σ' :
  outlets σ !! o = Some this ->
  activated this = None ->
  RouterOutlet.activateWith fuel o rt rsv σ = (Throw e, σ') ->
  ~ settled (Throw e).
Proof.
  intros H Ha Hrun Hs.
  rewrite (activateWith_inactive _ _ _ _ _ _ H Ha) in Hrun.
  unfold activateWithInactive in Hrun.
  destruct (routeConfig (_futureSnapshot rt)) as [config|];
    [|injection Hrun as <- <-; by destruct Hs].
  destruct (default (resolver this) rsv (Route.component config))
    as [factory|]; [|injection Hrun as <- <-; by destruct Hs].
  destruct (ChildrenOutletContexts.getOrCreateContext _ _ _)
    as [[context|e'] σ2] eqn:Hctx.
  - destruct (create factory _); [|injection Hrun as <- <-; by destruct Hs].
    destruct (ViewContainerRef.newInstance (componentType factory)); [|done].
    apply emit_throws in Hrun. by destruct Hrun as [->| ->], Hs.
  - injection Hrun as <- <-.
    unfold ChildrenOutletContexts.getOrCreateContext in Hctx.
    destruct (registries _ !! _) as [m|].
    + by destruct (m !! name this).
    + injection Hctx as <- <-. by destruct Hs.
Qed.









(** ** The placeholder's accessors *)

(** C7 (as the code has it): the accessors of the placeholder return null,
    and the empty object for the data, as long as its reference to the nested
    outlet is not set; once it is set they hand the question to the nested
    outlet, so that they throw the not-activated error while the nested
    outlet is Inactive.  So [component] of the owning outlet returns null
    right after the activation that produced the placeholder, and throws once
    the reference is set and until the nested outlet activates. *)
Theorem placeholder_accessors σ (c : EmptyOutletComponent) :
  (outlet c = None ->
   (forall fuel,
      EmptyOutletComponent.component (RouterOutlet.component fuel) c σ = Ok None) /\
   EmptyOutletComponent.activatedRoute RouterOutlet.activatedRoute c σ = Ok None /\
   EmptyOutletComponent.activatedRouteData RouterOutlet.activatedRoute c σ = Ok ∅) /\
  (forall nested, outlet c = Some nested ->
   (forall fuel,
      EmptyOutletComponent.component (RouterOutlet.component fuel) c σ
        = RouterOutlet.component fuel nested σ) /\
   EmptyOutletComponent.activatedRoute RouterOutlet.activatedRoute c σ
     = RouterOutlet.activatedRoute nested σ /\
   EmptyOutletComponent.activatedRouteData RouterOutlet.activatedRoute c σ
     = match RouterOutlet.activatedRoute nested σ with
       | Ok (Some rt) => Ok (data (snapshot rt))
       | Ok None => Ok ∅
       | Throw e => Throw e
       end) /\
  (forall o this a r,
     outlets σ !! o = Some this ->
     activated this = Some a ->
     components σ !! a = Some r ->
     instance r = EmptyOutletInstance c ->
     (outlet c = None ->
      forall fuel, RouterOutlet.component (S fuel) o σ = Ok None) /\
     (forall nested that,
        outlet c = Some nested ->
        outlets σ !! nested = Some that ->
        activated that = None ->
        forall fuel,
          RouterOutlet.component (S (S fuel)) o σ = Throw NotActivatedError)) /\
  (forall fuel σ0 o this rt rsv that a r,
     outlets σ0 !! o = Some this ->
     RouterOutlet.activateWith fuel o rt rsv σ0 = (Ok tt, σ) ->
     outlets σ !! o = Some that ->
     activated that = Some a ->
     components σ !! a = Some r ->
     instanceofEmptyOutletComponent (instance r) = true ->
     forall fuel', RouterOutlet.component (S fuel') o σ = Ok None).
Proof.
  split; [|split; [|split]].
  - intros Hc. unfold EmptyOutletComponent.component,
      EmptyOutletComponent.activatedRouteData,
      EmptyOutletComponent.activatedRoute. by rewrite Hc.
  - intros nested Hc. unfold EmptyOutletComponent.component,
      EmptyOutletComponent.activatedRouteData,
      EmptyOutletComponent.activatedRoute. rewrite Hc.
    repeat split.
    by destruct (RouterOutlet.activatedRoute nested σ) as [[rt|]|e].
  - intros o this a r Ho Ha Hr Hi. split.
    + intros Hc fuel. simpl. rewrite Ho, Ha, Hr, Hi.
      unfold EmptyOutletComponent.component. by rewrite Hc.
    + intros nested that Hc Hn Hna fuel. simpl. rewrite Ho, Ha, Hr, Hi.
      unfold EmptyOutletComponent.component. by rewrite Hc, Hn, Hna.
  - intros fuel σ0 o this rt rsv that a r H Hrun Hthat Ha Hr Hi fuel'.
    destruct (activateWith_Ok _ _ _ _ _ _ _ H Hrun)
      as (_ & config & factory & context & σ2 & that' & r' & _ & _ & _ & _
          & _ & Hthat' & Hr' & _ & _ & Hinst).
    rewrite Hthat in Hthat'. injection Hthat' as <-.
    assert (a = nextId σ2) as ->.
    { destruct (componentType factory); destruct Hinst as [_ Hm];
        rewrite Hm in Ha; by injection Ha. }
    rewrite Hr in Hr'. injection Hr' as <-.
    destruct (componentType factory); destruct Hinst as [Hi' _];
      rewrite Hi' in Hi; [|done].
    simpl. by rewrite Hthat, Ha, Hr, Hi'.
Qed.

(** The outlet 1 right after it produced the placeholder 3, and once the
    placeholder refers to its Inactive nested outlet 5. *)
Lemma placeholder_accessors_witness :
  RouterOutlet.component 1 1 Scene.activeEmpty = Ok None /\
  RouterOutlet.component 2 1 Scene.nestedResolved = Throw NotActivatedError /\
  EmptyOutletComponent.activatedRouteData RouterOutlet.activatedRoute
    (relayed 4 1) Scene.activeEmpty = Ok ∅.
Proof.
  destruct (placeholder_accessors Scene.activeEmpty (relayed 4 1))
    as (Hunset & _ & Howner & _).
  destruct (placeholder_accessors Scene.nestedResolved Scene.placeholderResolved)
    as (_ & _ & Howner' & _).
  split; [|split].
  - exact (proj1 (Howner 1 _ 3 _ eq_refl eq_refl eq_refl eq_refl) eq_refl 0).
  - exact (proj2 (Howner' 1 _ 3 _ eq_refl eq_refl eq_refl eq_refl)
             5 _ eq_refl eq_refl eq_refl 0).
  - exact (proj2 (proj2 (Hunset eq_refl))).
Defined.

(** C7, the claim as stated fails: the outlet 1 activated a route without a
    view of its own and holds the placeholder 3; the nested outlet 5 has not
    activated; the placeholder's accessors and [component] of the outlet 1
    throw instead of returning null or the empty object. *)
Lemma accessors_throw_before_nested_activation :
  activated <$> outlets Scene.nestedResolved !! 1 = Some (Some 3) /\
  instance <$> components Scene.nestedResolved !! 3
    = Some (EmptyOutletInstance Scene.placeholderResolved) /\
  activated <$> outlets Scene.nestedResolved !! 5 = Some None /\
  RouterOutlet.component 4 1 Scene.nestedResolved = Throw NotActivatedError /\
  EmptyOutletComponent.component (RouterOutlet.component 4)
    Scene.placeholderResolved Scene.nestedResolved = Throw NotActivatedError /\
  EmptyOutletComponent.activatedRoute RouterOutlet.activatedRoute
    Scene.placeholderResolved Scene.nestedResolved = Throw NotActivatedError /\
  EmptyOutletComponent.activatedRouteData RouterOutlet.activatedRoute
    Scene.placeholderResolved Scene.nestedResolved = Throw NotActivatedError.
Proof. repeat split. Qed.

(** ** ngOnInit *)

(** C9: [ngOnInit] of an outlet that is not activated looks up the context of
    the outlet's name in its parent scope.  With a context that holds a route
    and a detached view, it attaches that view with that route.  With a
    context that holds a route and no detached view, it activates the route:
    it does what [activateWith] does with that route and the context's
    resolver; when it returns, the outlet is Active with the pending route
    and with a view of the route's component, built by the factory that the
    context's resolver gave when the context has one and the outlet's own
    resolver otherwise, mounted after the views the container held and, when
    it is not a placeholder, emitted once as an activate event; and it does
    return on an outlet that no placeholder hosts when route, resolver and
    factory are in order.  With no context, or a context with no route, it
    returns and changes nothing. *)
Theorem ngOnInit_reconciles fuel σ o this scope :
  outlets σ !! o = Some this ->
  activated this = None ->
  registries σ !! parentContexts this = Some scope ->
  (forall context rt ref,
     scope !! name this = Some context ->
     ctxRoute context = Some rt ->
     ctxAttachRef context = Some ref ->
     RouterOutlet.ngOnInit fuel o σ = RouterOutlet.attach o ref rt σ /\
     RouterOutlet.ngOnInit fuel o σ = (Ok tt, setOutlet o (attached ref rt this) σ)) /\
  (forall context rt,
     scope !! name this = Some context ->
     ctxRoute context = Some rt ->
     ctxAttachRef context = None ->
     RouterOutlet.ngOnInit fuel o σ
       = RouterOutlet.activateWith fuel o rt (ctxResolver context) σ /\
     (forall σ',
        RouterOutlet.ngOnInit fuel o σ = (Ok tt, σ') ->
        exists config factory a r that,
          routeConfig (_futureSnapshot rt) = Some config /\
          match ctxResolver context with
          | Some override => override
          | None => resolver this
          end (Route.component config) = Some factory /\
          outlets σ' !! o = Some that /\
          activated that = Some a /\
          _activatedRoute that = Some rt /\
          views (location that) = views (location this) ++ [a] /\
          components σ' !! a = Some r /\
          destroyed r = false /\
          match componentType factory with
          | ViewType s =>
              instance r = ViewInstance s /\
              activateEvents that = activateEvents this ++ [Some a]
          | EmptyOutletComponentType =>
              instanceofEmptyOutletComponent (instance r) = true /\
              activateEvents that = activateEvents this
          end) /\
     (forall config factory,
        host this = None ->
        routeConfig (_futureSnapshot rt) = Some config ->
        match ctxResolver context with
        | Some override => override
        | None => resolver this
        end (Route.component config) = Some factory ->
        (forall inj, create factory inj = true) ->
        exists σ', RouterOutlet.ngOnInit (S fuel) o σ = (Ok tt, σ'))) /\
  (scope !! name this = None \/
   (exists context, scope !! name this = Some context /\ ctxRoute context = None) ->
   RouterOutlet.ngOnInit fuel o σ = (Ok tt, σ)).
Proof.
  intros H Ha Hs.
  split; [|split].
  - intros context rt ref Hc Hrt Hatt.
    rewrite (ngOnInit_spec _ _ _ _ H), Ha, Hs, Hc, Hrt, Hatt.
    split; [done|]. by apply attach_spec.
  - intros context rt Hc Hrt Hatt.
    assert (forall fuel',
              RouterOutlet.ngOnInit fuel' o σ
              = RouterOutlet.activateWith fuel' o rt (ctxResolver context) σ)
      as Hinit.
    { intros fuel'. by rewrite (ngOnInit_spec _ _ _ _ H), Ha, Hs, Hc, Hrt, Hatt. }
    split; [apply Hinit|]. split.
    + intros σ' Hrun. rewrite Hinit in Hrun.
      destruct (activateWith_Ok _ _ _ _ _ _ _ H Hrun)
        as (_ & config & factory & context' & σ2 & that & r & Hcfg & Hfac & _
            & _ & _ & Hthat & Hr & _ & Hd & Hinst).
      exists config, factory, (nextId σ2), r, that.
      split; [done|]. split; [by destruct (ctxResolver context)|].
      split; [done|].
      destruct (componentType factory) as [|s]; destruct Hinst as [Hi ->];
        repeat split; try done.
      by rewrite Hi.
    + intros config factory Hh Hcfg Hfac Hcreate. rewrite Hinit.
      by eapply activateWith_returns.
  - rewrite (ngOnInit_spec _ _ _ _ H), Ha, Hs.
    intros [->|(context & -> & ->)]; done.
Qed.

(** The outlet 1 is initialised with nothing pending, with route A pending,
    and with route B and the detached view 9 pending. *)
Lemma ngOnInit_reconciles_witness :
  RouterOutlet.ngOnInit 4 1 Scene.created = (Ok tt, Scene.created) /\
  (exists σ' that r,
     RouterOutlet.ngOnInit 4 1 Scene.pendingA = (Ok tt, σ') /\
     outlets σ' !! 1 = Some that /\
     activated that = Some 3 /\
     _activatedRoute that = Some Scene.routeA /\
     views (location that) = [3] /\
     components σ' !! 3 = Some r /\
     instance r = ViewInstance "ViewA" /\
     activateEvents that = [Some 3]) /\
  RouterOutlet.ngOnInit 4 1 Scene.pendingDetached
    = (Ok tt, setOutlet 1 (attached 9 Scene.routeB Scene.freshOutlet)
                Scene.pendingDetached).
Proof.
  split; [|split].
  - refine (proj2 (proj2 (ngOnInit_reconciles 4 Scene.created 1 Scene.freshOutlet
                            _ eq_refl eq_refl eq_refl)) _).
    right. eexists. split; reflexivity.
  - destruct (proj1 (proj2 (ngOnInit_reconciles 3 Scene.pendingA 1
                              Scene.freshOutlet _ eq_refl eq_refl eq_refl))
                _ Scene.routeA eq_refl eq_refl eq_refl) as (_ & _ & Hreturns).
    destruct (Hreturns {| Route.component := ViewType "ViewA" |}
                (Scene.factoryOf (ViewType "ViewA")) eq_refl eq_refl eq_refl
                (fun _ => eq_refl)) as [σ' Hrun].
    destruct (proj1 (proj2 (ngOnInit_reconciles 4 Scene.pendingA 1
                              Scene.freshOutlet _ eq_refl eq_refl eq_refl))
                _ Scene.routeA eq_refl eq_refl eq_refl) as (_ & Hok & _).
    destruct (Hok σ' Hrun)
      as (config & factory & a & r & that & Hcfg & Hfac & Hthat & Ha & Hrt & Hv
          & Hr & _ & Hinst).
    injection Hcfg as <-. injection Hfac as <-. destruct Hinst as [Hi He].
    assert (a = 3) as ->.
    { pose proof Hrun as Hrun'.
      change (RouterOutlet.ngOnInit 4 1 Scene.pendingA)
        with (RouterOutlet.activateWith 4 1 Scene.routeA None Scene.pendingA)
        in Hrun'.
      vm_compute in Hrun'. injection Hrun' as <-.
      vm_compute in Hthat. injection Hthat as <-.
      vm_compute in Ha. by injection Ha. }
    exists σ', that, r. repeat split; assumption.
  - refine (proj2 (proj1 (ngOnInit_reconciles 4 Scene.pendingDetached 1
                            Scene.freshOutlet _ eq_refl eq_refl eq_refl)
                     _ Scene.routeB 9 eq_refl eq_refl eq_refl)).
Defined.

(** * Further properties of the outlet and of the placeholder *)

(** ** The relay chain *)

Lemma relayPath_functional ch σ n l :
  relayPath ch σ n l -> forall l', relayPath ch σ n l' -> l = l'.
Proof.
  induction 1 as [n this Hn Hh|n this p r c sink o rest Hn Hh Hp Hi Hobs _ IH];
    intros l' Hl'.
  - inversion Hl' as [n' this' Hn' Hh'|n' this' p' r' c' sink' o' rest' Hn' Hh'];
      subst; [done|]. rewrite Hn in Hn'. injection Hn' as <-. congruence.
  - inversion Hl' as [n' this' Hn' Hh'
                     |n' this' p' r' c' sink' o' rest' Hn' Hh' Hp' Hi' Hobs' Hrest'];
      subst.
    + rewrite Hn in Hn'. injection Hn' as <-. congruence.
    + rewrite Hn in Hn'. injection Hn' as <-.
      rewrite Hh in Hh'. injection Hh' as <-.
      rewrite Hp in Hp'. injection Hp' as <-.
      rewrite Hi in Hi'. injection Hi' as <-.
      rewrite Hobs in Hobs'. injection Hobs' as <- <-.
      f_equal. by apply IH.
Qed.

Lemma relayPath_shorter ch σ n l :
  relayPath ch σ n l ->
  forall x, x ∈ l -> exists l2, relayPath ch σ x l2 /\ length l2 < length l.
Proof.
  induction 1 as [|n this p r c sink o rest Hn Hh Hp Hi Hobs Hrest IH];
    intros x Hx.
  - by apply elem_of_nil in Hx.
  - apply elem_of_cons in Hx as [->|Hx].
    + exists rest. split; [done|]. simpl. lia.
    + destruct (IH x Hx) as (l2 & Hl2 & Hlen). exists l2. split; [done|].
      simpl. lia.
Qed.

Lemma relayPath_fresh ch σ n l : relayPath ch σ n l -> n ∉ l.
Proof.
  intros Hl Hin. destruct (relayPath_shorter _ _ _ _ Hl n Hin) as (l2 & Hl2 & Hlen).
  rewrite (relayPath_functional _ _ _ _ Hl _ Hl2) in Hlen. lia.
Qed.

Lemma relayPath_evolves ch σ τ n l :
  evolves ch σ τ -> relayPath ch σ n l -> relayPath ch τ n l.
Proof.
  intros (Hc & _ & _ & Ho).
  induction 1 as [n this Hn Hh|n this p r c sink o rest Hn Hh Hp Hi Hobs _ IH].
  - specialize (Ho n). rewrite Hn in Ho.
    inversion Ho as [a that Hthat Ha Hb|]. subst a.
    eapply relayPath_top; [done|].
    by rewrite (sameButEmitted_host ch _ _ Hthat).
  - specialize (Ho n). rewrite Hn in Ho.
    inversion Ho as [a that Hthat Ha Hb|]. subst a.
    eapply relayPath_up; try done.
    + by rewrite (sameButEmitted_host ch _ _ Hthat).
    + by rewrite Hc.
Qed.

Lemma emittedAt_record ch ev n this σ x :
  outlets σ !! n = Some this ->
  emittedAt ch (setOutlet n (record ch ev this) σ) x
    = (fun l => l ++ if decide (x = n) then [ev] else []) <$> emittedAt ch σ x.
Proof.
  intros Hn. unfold emittedAt. destruct (decide (x = n)) as [->|Hne].
  - rewrite lookup_setOutlet_eq, Hn. simpl. f_equal. by destruct ch.
  - rewrite lookup_setOutlet_ne by done.
    destruct (outlets σ !! x); simpl; [|done]. by rewrite app_nil_r.
Qed.

(** An event that an outlet emits travels up its chain of placeholders: with
    fuel for the length of the chain the emission returns, the outlet and
    each outlet up the chain emitted the event exactly once on that channel,
    and nothing else in the store changed. *)
Lemma emit_along_path ch ev path : forall fuel n σ,
  relayPath ch σ n path ->
  length path < fuel ->
  exists σ',
    RouterOutlet.emit fuel ch ev n σ = (Ok tt, σ') /\
    evolves ch σ σ' /\
    forall x,
      emittedAt ch σ' x =
        (fun l => l ++ if decide (x ∈ n :: path) then [ev] else [])
          <$> emittedAt ch σ x.
Proof.
  induction path as [|o rest IH]; intros fuel n σ Hpath Hfuel.
  - destruct fuel as [|fuel]; [simpl in Hfuel; lia|].
    inversion Hpath as [n' this Hn Hh|]; subst.
    exists (setOutlet n (record ch ev this) σ).
    split; [by rewrite emit_S, Hn, Hh|].
    split; [by apply evolves_record|].
    intros x. rewrite (emittedAt_record _ _ _ _ _ _ Hn).
    destruct (emittedAt ch σ x); simpl; [|done].
    do 2 f_equal. destruct (decide (x = n)) as [->|Hne].
    + rewrite decide_True; [done|]. by apply list_elem_of_singleton.
    + rewrite decide_False; [done|]. by intros ->%list_elem_of_singleton.
  - destruct fuel as [|fuel]; [simpl in Hfuel; lia|].
    pose proof (relayPath_fresh _ _ _ _ Hpath) as Hfresh.
    inversion Hpath as [|n' this p r c sink o' rest' Hn Hh Hp Hi Hobs Hrest];
      subst.
    pose proof (evolves_record ch ev n this σ Hn) as Hev1.
    destruct (IH fuel o (setOutlet n (record ch ev this) σ))
      as (σ' & Hrun & Hev & Hlog).
    { by eapply relayPath_evolves. }
    { simpl in Hfuel. lia. }
    exists σ'. split; [|split].
    + rewrite emit_S, Hn. cbv zeta. rewrite Hh, Hp, Hi, Hobs.
      rewrite forEach_cons. simpl. by rewrite Hrun.
    + by eapply evolves_trans.
    + intros x. rewrite Hlog, (emittedAt_record _ _ _ _ _ _ Hn).
      destruct (emittedAt ch σ x); simpl; [|done]. f_equal.
      rewrite <- app_assoc. f_equal.
      destruct (decide (x = n)) as [->|Hne].
      * rewrite (decide_False (P := n ∈ o :: rest)) by done.
        rewrite decide_True; [done|]. apply elem_of_cons. by left.
      * destruct (decide (x ∈ o :: rest)) as [Hin|Hnin].
        -- rewrite decide_True; [done|]. apply elem_of_cons. by right.
        -- rewrite decide_False; [done|].
           intros [->|Hin]%elem_of_cons; done.
Qed.

(** X1: the handlers [activate(ev)] and [deactivate(ev)] of a placeholder
    hand the event to the outlet that activated the placeholder, and from
    there it travels up: the call returns, that outlet and each outlet up
    its chain of placeholders emitted the event exactly once on the same
    channel, no other outlet emitted anything, and nothing else changed. *)
Theorem placeholder_relays_up_the_chain ch ev fuel σ c sink o path :
  observers ch c = [(sink, o)] ->
  relayPath ch σ o path ->
  length path < fuel ->
  exists σ',
    EmptyOutletComponent.emit (RouterOutlet.emit fuel ch ev) ch c σ = (Ok tt, σ') /\
    evolves ch σ σ' /\
    forall x,
      emittedAt ch σ' x =
        (fun l => l ++ if decide (x ∈ o :: path) then [ev] else [])
          <$> emittedAt ch σ x.
Proof.
  intros Hobs Hpath Hfuel.
  destruct (emit_along_path ch ev path fuel o σ Hpath Hfuel)
    as (σ' & Hrun & Hev & Hlog).
  exists σ'. split; [|done].
  unfold EmptyOutletComponent.emit. rewrite Hobs, forEach_cons. simpl.
  by rewrite Hrun.
Qed.

(** The placeholder 3, activated by the outlet 1, is told of a deactivation
    by its nested outlet. *)
Lemma placeholder_relays_up_the_chain_witness :
  exists σ',
    EmptyOutletComponent.emit (RouterOutlet.emit 1 DeactivateChannel (Some 7))
      DeactivateChannel Scene.placeholderResolved Scene.nestedResolved
      = (Ok tt, σ') /\
    emittedAt DeactivateChannel σ' 1 = Some [Some 7] /\
    emittedAt DeactivateChannel σ' 5 = Some [].
Proof.
  assert (relayPath DeactivateChannel Scene.nestedResolved 1 []) as Hpath.
  { eapply relayPath_top; reflexivity. }
  destruct (placeholder_relays_up_the_chain DeactivateChannel (Some 7) 1
              Scene.nestedResolved Scene.placeholderResolved 4 1 [] eq_refl Hpath)
    as (σ' & Hrun & _ & Hlog); [simpl; lia|].
  exists σ'. split; [exact Hrun|]. split; rewrite Hlog; reflexivity.
Defined.

(** ** A nested outlet activates and deactivates *)

Lemma getOrCreateContext_nextId g n σ r σ' :
  ChildrenOutletContexts.getOrCreateContext g n σ = (r, σ') ->
  nextId σ <= nextId σ'.
Proof.
  unfold ChildrenOutletContexts.getOrCreateContext.
  destruct (registries σ !! g) as [m|]; [|by intros [= <- <-]].
  destruct (m !! n); [by intros [= <- <-]|].
  intros [= <- <-]. simpl. lia.
Qed.

(** A chain of relays is still there in a store whose outlets have the same
    hosts and whose placeholders are as they were. *)
Lemma relayPath_ext ch σ τ n l :
  (forall x this, outlets σ !! x = Some this ->
     exists that, outlets τ !! x = Some that /\ host that = host this) ->
  (forall p r c, components σ !! p = Some r ->
     instance r = EmptyOutletInstance c ->
     exists r', components τ !! p = Some r' /\ instance r' = EmptyOutletInstance c) ->
  relayPath ch σ n l -> relayPath ch τ n l.
Proof.
  intros Hout Hcmp.
  induction 1 as [n this Hn Hh|n this p r c sink o rest Hn Hh Hp Hi Hobs _ IH].
  - destruct (Hout _ _ Hn) as (that & Hthat & Hhost).
    eapply relayPath_top; [done|]. by rewrite Hhost.
  - destruct (Hout _ _ Hn) as (that & Hthat & Hhost).
    destruct (Hcmp _ _ _ Hp Hi) as (r' & Hr' & Hi').
    eapply relayPath_up; try done. by rewrite Hhost.
Qed.

(** X2: an Inactive outlet nested under placeholders is activated with a
    route whose component is a plain view, in a store whose component
    identities are all allocated: with fuel for the chain the call returns,
    and the new instance is emitted as an activate event exactly once by the
    outlet and by each outlet up its chain of placeholders, and by no other
    outlet. *)
Theorem nested_activation_surfaces_once fuel σ o this rt rsv config factory s path :
  outlets σ !! o = Some this ->
  activated this = None ->
  routeConfig (_futureSnapshot rt) = Some config ->
  match rsv with
  | Some explicit => explicit
  | None => resolver this
  end (Route.component config) = Some factory ->
  componentType factory = ViewType s ->
  is_Some (registries σ !! parentContexts this) ->
  (forall inj, create factory inj = true) ->
  map_Forall (fun k _ => k < nextId σ) (components σ) ->
  relayPath ActivateChannel σ o path ->
  length path < fuel ->
  exists σ' a,
    RouterOutlet.activateWith fuel o rt rsv σ = (Ok tt, σ') /\
    activation σ' o = Some (Some a, Some rt) /\
    forall x,
      emittedAt ActivateChannel σ' x =
        (fun l => l ++ if decide (x ∈ o :: path) then [Some a] else [])
          <$> emittedAt ActivateChannel σ x.
Proof.
  intros H Ha Hcfg Hfac Ht [scope Hs] Hcreate Hids Hpath Hfuel.
  rewrite (activateWith_inactive _ _ _ _ _ _ H Ha).
  unfold activateWithInactive. rewrite Hcfg.
  assert (default (resolver this) rsv (Route.component config) = Some factory)
    as -> by (by destruct rsv).
  destruct (ChildrenOutletContexts.getOrCreateContext _ _ _)
    as [[context|e] σ2] eqn:Hctx.
  2: { unfold ChildrenOutletContexts.getOrCreateContext in Hctx.
       simpl registries in Hctx. rewrite Hs in Hctx.
       by destruct (scope !! name this). }
  destruct (getOrCreateContext_frame _ _ _ _ _ Hctx) as [Hout Hcmp].
  pose proof (getOrCreateContext_nextId _ _ _ _ _ Hctx) as Hnext.
  simpl in Hout, Hcmp, Hnext.
  rewrite Hcreate, Ht. simpl ViewContainerRef.newInstance. cbv iota.
  set (τ := mounted o rt factory (outletInjector rt context this) this σ2).
  assert (relayPath ActivateChannel τ o path) as Hτ.
  { eapply relayPath_ext; [| |exact Hpath].
    - intros x other Hx. unfold τ, mounted.
      destruct (decide (x = o)) as [->|Hne].
      + rewrite lookup_setOutlet_eq. eexists. split; [done|].
        rewrite H in Hx. by injection Hx as <-.
      + rewrite lookup_setOutlet_ne by done. simpl. rewrite Hout.
        rewrite lookup_insert_ne by done. by exists other.
    - intros p r c Hp Hi. exists r. split; [|done].
      unfold τ, mounted. simpl. rewrite Hcmp.
      rewrite lookup_insert_ne; [done|].
      pose proof (map_Forall_lookup_1 _ _ _ _ Hids Hp) as Hlt.
      simpl in Hlt. lia. }
  destruct (emit_along_path ActivateChannel (Some (nextId σ2)) path fuel o τ
              Hτ Hfuel) as (σ' & Hrun & Hev & Hlog).
  exists σ', (nextId σ2). split; [done|]. split.
  - rewrite (evolves_activation _ _ _ _ Hev). unfold τ, mounted, activation.
    by rewrite lookup_setOutlet_eq.
  - intros x. rewrite Hlog. f_equal.
    unfold emittedAt, τ, mounted.
    destruct (decide (x = o)) as [->|Hne].
    + rewrite lookup_setOutlet_eq, H. by destruct this.
    + rewrite lookup_setOutlet_ne by done. simpl. rewrite Hout.
      by rewrite lookup_insert_ne.
Qed.

(** The nested outlet 5 of the placeholder 3 is activated with route A: the
    new instance is emitted once by the outlet 5 and once by the outlet 1. *)
Lemma nested_activation_surfaces_once_witness :
  exists σ' a,
    RouterOutlet.activateWith 4 5 Scene.routeA None Scene.nestedResolved
      = (Ok tt, σ') /\
    emittedAt ActivateChannel σ' 5 = Some [Some a] /\
    emittedAt ActivateChannel σ' 1 = Some [Some a].
Proof.
  assert (relayPath ActivateChannel Scene.nestedResolved 5 [1]) as Hpath.
  { eapply (relayPath_up _ _ 5 _ 3 _ Scene.placeholderResolved 4 1 []);
      try reflexivity.
    eapply relayPath_top; reflexivity. }
  assert (map_Forall (fun k (_ : ComponentRef) => k < nextId Scene.nestedResolved)
            (components Scene.nestedResolved)) as Hids.
  { apply map_Forall_lookup_2. intros k r Hk.
    destruct (decide (k = 3)) as [->|Hne].
    { assert (nextId Scene.nestedResolved = 7) as -> by reflexivity. lia. }
    exfalso.
    assert (exists r0, components Scene.nestedResolved = {[3 := r0]}) as [r0 Heq].
    { eexists. reflexivity. }
    rewrite Heq in Hk. by rewrite lookup_singleton_ne in Hk. }
  destruct (nested_activation_surfaces_once 4 Scene.nestedResolved 5 _
              Scene.routeA None _ (Scene.factoryOf (ViewType "ViewA")) "ViewA" [1]
              eq_refl eq_refl eq_refl eq_refl eq_refl)
    as (σ' & a & Hrun & Hact & Hlog).
  - eexists. reflexivity.
  - intros inj. reflexivity.
  - exact Hids.
  - exact Hpath.
  - simpl. lia.
  - exists σ', a. split; [exact Hrun|]. split; rewrite Hlog; reflexivity.
Defined.

(** X3: an outlet that holds a plain view and is nested under placeholders
    is deactivated: with fuel for the chain the call returns, the view is
    destroyed and taken out of the container, handle and route are cleared,
    and the instance is emitted as a deactivate event exactly once by the
    outlet and by each outlet up its chain of placeholders, and by no other
    outlet. *)
Theorem nested_deactivation_surfaces_once fuel σ o this a r s path :
  outlets σ !! o = Some this ->
  activated this = Some a ->
  components σ !! a = Some r ->
  instance r = ViewInstance s ->
  relayPath DeactivateChannel σ o path ->
  length path < fuel ->
  exists σ' that,
    RouterOutlet.deactivate fuel o σ = (Ok tt, σ') /\
    outlets σ' !! o = Some that /\
    activated that = None /\
    _activatedRoute that = None /\
    views (location that) = filter (fun v => v ≠ a) (views (location this)) /\
    destroyed <$> components σ' !! a = Some true /\
    forall x,
      emittedAt DeactivateChannel σ' x =
        (fun l => l ++ if decide (x ∈ o :: path) then [Some a] else [])
          <$> emittedAt DeactivateChannel σ x.
Proof.
  intros H Ha Hr Hi Hpath Hfuel.
  rewrite (deactivate_active _ _ _ _ _ H Ha).
  destruct fuel as [|fuel]; [simpl in Hfuel; lia|].
  assert (RouterOutlet.component (S fuel) o σ = Ok (Some a)) as ->.
  { simpl. by rewrite H, Ha, Hr, Hi. }
  rewrite Hr.
  set (τ := deactivatedStore o a this r σ).
  assert (relayPath DeactivateChannel τ o path) as Hτ.
  { eapply relayPath_ext; [| |exact Hpath].
    - intros x other Hx. unfold τ, deactivatedStore.
      destruct (decide (x = o)) as [->|Hne].
      + rewrite lookup_setOutlet_eq. eexists. split; [done|].
        rewrite H in Hx. by injection Hx as <-.
      + rewrite lookup_setOutlet_ne by done. by exists other.
    - intros p r' c Hp Hi'. exists r'. split; [|done].
      unfold τ, deactivatedStore. simpl.
      rewrite lookup_insert_ne; [done|]. intros <-. congruence. }
  destruct (emit_along_path DeactivateChannel (Some a) path (S fuel) o τ Hτ Hfuel)
    as (σ' & Hrun & Hev & Hlog).
  destruct Hev as (Hc & _ & _ & Ho). specialize (Ho o).
  unfold τ, deactivatedStore in Ho. rewrite lookup_setOutlet_eq in Ho.
  inversion Ho as [b that Hthat Hb Hthat'|]. subst b.
  destruct (sameButEmitted_activation _ _ _ Hthat) as (Hact & Hrt & Hloc).
  exists σ', that. split; [done|]. split; [done|].
  split; [by rewrite Hact|]. split; [by rewrite Hrt|].
  split; [by rewrite Hloc|]. split.
  - rewrite Hc. unfold τ, deactivatedStore. simpl. by rewrite lookup_insert_eq.
  - intros x. rewrite Hlog. f_equal.
    unfold emittedAt, τ, deactivatedStore.
    destruct (decide (x = o)) as [->|Hne].
    + rewrite lookup_setOutlet_eq, H. done.
    + by rewrite lookup_setOutlet_ne.
Qed.

(** The nested outlet 5, Active with the ViewA instance 7, is deactivated:
    the instance is emitted once by the outlet 5 and once by the outlet 1. *)
Lemma nested_deactivation_surfaces_once_witness :
  exists σ',
    RouterOutlet.deactivate 4 5 Scene.nestedActive = (Ok tt, σ') /\
    emittedAt DeactivateChannel σ' 5 = Some [Some 7] /\
    emittedAt DeactivateChannel σ' 1 = Some [Some 7] /\
    destroyed <$> components σ' !! 7 = Some true.
Proof.
  assert (relayPath DeactivateChannel Scene.nestedActive 5 [1]) as Hpath.
  { eapply (relayPath_up _ _ 5 _ 3 _ Scene.placeholderResolved 4 1 []);
      try reflexivity.
    eapply relayPath_top; reflexivity. }
  destruct (nested_deactivation_surfaces_once 4 Scene.nestedActive 5 _ 7 _ "ViewA"
              [1] eq_refl eq_refl eq_refl eq_refl Hpath)
    as (σ' & that & Hrun & _ & _ & _ & _ & Hd & Hlog); [simpl; lia|].
  exists σ'. split; [exact Hrun|].
  split; [rewrite Hlog; reflexivity|]. split; [rewrite Hlog; reflexivity|].
  exact Hd.
Defined.

(** ** The life of one activation *)

(** [deactivate] of an Active outlet that no placeholder hosts returns once
    [component] has answered. *)
Lemma deactivate_unhosted fuel σ o this a c r :
  outlets σ !! o = Some this ->
  activated this = Some a ->
  host this = None ->
  RouterOutlet.component (S fuel) o σ = Ok c ->
  components σ !! a = Some r ->
  exists σ',
    RouterOutlet.deactivate (S fuel) o σ = (Ok tt, σ') /\
    σ' = setOutlet o (record DeactivateChannel c (deactivatedOutlet a this))
           (setComponent a (destroyedRef r) σ).
Proof.
  intros H Ha Hh Hc Hr. eexists. split; [|reflexivity].
  rewrite (deactivate_active _ _ _ _ _ H Ha), Hc, Hr.
  rewrite emit_S. unfold deactivatedStore. rewrite lookup_setOutlet_eq.
  cbv zeta. simpl host. rewrite Hh. by rewrite setOutlet_setOutlet.
Qed.

(** X4: [deactivate] is idempotent: after a [deactivate] that returned, a
    second one returns and changes nothing, so that one activation is never
    followed by two deactivate events. *)
Theorem deactivate_twice_is_once fuel fuel' σ o this σ1 :
  outlets σ !! o = Some this ->
  RouterOutlet.deactivate fuel o σ = (Ok tt, σ1) ->
  RouterOutlet.deactivate fuel' o σ1 = (Ok tt, σ1).
Proof.
  intros H Hrun. destruct (activated this) as [a|] eqn:Ha.
  - destruct (deactivate_Ok _ _ _ _ _ _ H Ha Hrun) as (c & r & _ & _ & _ & Hthat).
    eapply deactivate_inactive; [exact Hthat|]. by destruct c.
  - rewrite (deactivate_inactive _ _ _ _ H Ha) in Hrun. injection Hrun as <-.
    by eapply deactivate_inactive.
Qed.

(** The outlet 1, Active with the ViewA instance 3, is deactivated twice. *)
Lemma deactivate_twice_is_once_witness :
  exists σ1,
    RouterOutlet.deactivate 4 1 Scene.activeA = (Ok tt, σ1) /\
    RouterOutlet.deactivate 1 1 σ1 = (Ok tt, σ1) /\
    emittedAt DeactivateChannel σ1 1 = Some [Some 3].
Proof.
  destruct (deactivate_unhosted 3 Scene.activeA 1 outletA 3 (Some 3) _
              eq_refl eq_refl eq_refl eq_refl eq_refl) as [σ1 [Hrun Hσ1]].
  exists σ1. split; [exact Hrun|]. split.
  - exact (deactivate_twice_is_once 4 1 Scene.activeA 1 _ _ eq_refl Hrun).
  - rewrite Hσ1. reflexivity.
Defined.

(** X5: [detach] hands the view over: it emits nothing on any outlet and
    changes no component ref, and afterwards the outlet neither destroys nor
    announces that view: a [deactivate] returns and changes nothing, and a
    second [detach] is refused. *)
Theorem detach_hands_the_view_over σ o this a σ1 :
  outlets σ !! o = Some this ->
  RouterOutlet.detach o σ = (Ok a, σ1) ->
  activated this = Some a /\
  components σ1 = components σ /\
  (forall ch x, emittedAt ch σ1 x = emittedAt ch σ x) /\
  (forall fuel, RouterOutlet.deactivate fuel o σ1 = (Ok tt, σ1)) /\
  RouterOutlet.detach o σ1 = (Throw NotActivatedError, σ1).
Proof.
  intros H Hrun. destruct (activated this) as [a'|] eqn:Ha.
  2: { by rewrite (detach_inactive _ _ _ H Ha) in Hrun. }
  rewrite (detach_spec _ _ _ _ H Ha) in Hrun. injection Hrun as <- <-.
  split; [done|]. split; [done|]. split; [|split].
  - intros ch x. unfold emittedAt. destruct (decide (x = o)) as [->|Hne].
    + rewrite lookup_setOutlet_eq, H. by destruct ch.
    + by rewrite lookup_setOutlet_ne.
  - intros fuel. eapply deactivate_inactive; [apply lookup_setOutlet_eq|done].
  - eapply detach_inactive; [apply lookup_setOutlet_eq|done].
Qed.

(** The outlet 1, Active with the ViewA instance 3, is detached. *)
Lemma detach_hands_the_view_over_witness :
  exists σ1,
    RouterOutlet.detach 1 Scene.activeA = (Ok 3, σ1) /\
    components σ1 = components Scene.activeA /\
    emittedAt DeactivateChannel σ1 1 = Some [] /\
    RouterOutlet.deactivate 4 1 σ1 = (Ok tt, σ1) /\
    RouterOutlet.detach 1 σ1 = (Throw NotActivatedError, σ1).
Proof.
  pose proof (detach_spec Scene.activeA 1 outletA 3 eq_refl eq_refl)
    as Hrun.
  destruct (detach_hands_the_view_over Scene.activeA 1 _ 3 _ eq_refl Hrun)
    as (_ & Hc & Hlog & Hde & Hdt).
  eexists. split; [exact Hrun|]. split; [exact Hc|].
  split; [rewrite Hlog; reflexivity|]. split; [exact (Hde 4)|exact Hdt].
Defined.

(** X6: [component] answers with what lies under the outlet's placeholders:
    it returns a value exactly when, fewer placeholders down than there is
    fuel, there is an outlet holding a plain view, whose instance it returns,
    or a placeholder whose reference to its nested outlet is not set, for
    which it returns null.  A reference it returns is a plain view, never a
    placeholder. *)
Theorem component_unwraps_the_placeholders σ fuel o res :
  (RouterOutlet.component fuel o σ = Ok res <->
   exists depth, depth < fuel /\ nesting σ o depth res) /\
  (forall a, RouterOutlet.component fuel o σ = Ok (Some a) ->
     exists r s, components σ !! a = Some r /\ instance r = ViewInstance s).
Proof.
  assert (forall fuel o res,
            RouterOutlet.component fuel o σ = Ok res ->
            exists depth, depth < fuel /\ nesting σ o depth res) as Hto.
  { clear. intros fuel. induction fuel as [|fuel IH]; intros o res; [done|].
    simpl.
    destruct (outlets σ !! o) as [this|] eqn:Ho; [|done].
    destruct (activated this) as [a|] eqn:Ha; [|done].
    destruct (components σ !! a) as [r|] eqn:Hr; [|done].
    destruct (instance r) as [s|c] eqn:Hi.
    - intros [= <-]. exists 0. split; [lia|]. by eapply nesting_view.
    - unfold EmptyOutletComponent.component.
      destruct (outlet c) as [nested|] eqn:Hc.
      + intros Hn. destruct (IH _ _ Hn) as (depth & Hlt & Hnest).
        exists (S depth). split; [lia|]. by eapply nesting_placeholder.
      + intros [= <-]. exists 0. split; [lia|]. by eapply nesting_unset. }
  assert (forall depth o res,
            nesting σ o depth res ->
            forall fuel, depth < fuel ->
            RouterOutlet.component fuel o σ = Ok res) as Hfrom.
  { clear. intros depth o res.
    induction 1 as [o this a r s Ho Ha Hr Hi|o this a r c Ho Ha Hr Hi Hc
                   |o this a r c nested depth res Ho Ha Hr Hi Hc _ IH];
      intros [|fuel] Hlt; try lia; simpl; rewrite Ho, Ha, Hr, Hi; [done| |];
      unfold EmptyOutletComponent.component; rewrite Hc; [done|].
    apply IH. lia. }
  assert (forall depth o res,
            nesting σ o depth res ->
            forall a, res = Some a ->
            exists r s, components σ !! a = Some r /\ instance r = ViewInstance s)
    as Hview.
  { clear. intros depth o res.
    induction 1 as [o this a r s Ho Ha Hr Hi| |]; intros a' Hres; [|done|eauto].
    injection Hres as <-. eauto. }
  split; [split|].
  - apply Hto.
  - intros (depth & Hlt & Hnest). by eapply Hfrom.
  - intros a Hc. destruct (Hto _ _ _ Hc) as (depth & _ & Hnest).
    by eapply Hview.
Qed.

(** X7: [ngOnInit] acts once: after an [ngOnInit] that returned, another one
    returns and changes nothing.  And [ngOnInit] is never refused on the
    activation state: it throws neither the already-activated nor the
    not-activated error. *)
Theorem ngOnInit_acts_once fuel σ o this :
  outlets σ !! o = Some this ->
  (forall σ1 fuel',
     RouterOutlet.ngOnInit fuel o σ = (Ok tt, σ1) ->
     RouterOutlet.ngOnInit fuel' o σ1 = (Ok tt, σ1)) /\
  (forall e σ1,
     RouterOutlet.ngOnInit fuel o σ = (Throw e, σ1) ->
     e ≠ AlreadyActivatedError /\ e ≠ NotActivatedError).
Proof.
  intros H.
  assert (forall that σ1 a fuel',
            outlets σ1 !! o = Some that -> activated that = Some a ->
            RouterOutlet.ngOnInit fuel' o σ1 = (Ok tt, σ1)) as Hactive.
  { intros that σ1 a fuel' Hthat Ha.
    by rewrite (ngOnInit_spec _ _ _ _ Hthat), Ha. }
  split.
  - intros σ1 fuel' Hrun.
    pose proof (ngOnInit_spec fuel' _ _ _ H) as Hagain.
    rewrite (ngOnInit_spec _ _ _ _ H) in Hrun.
    destruct (activated this) as [a|] eqn:Ha.
    { injection Hrun as <-. by eapply Hactive. }
    destruct (registries σ !! parentContexts this) as [scope|]; [|done].
    destruct (scope !! name this) as [context|];
      [|injection Hrun as <-; by rewrite Hagain].
    destruct (ctxRoute context) as [rt|];
      [|injection Hrun as <-; by rewrite Hagain].
    destruct (ctxAttachRef context) as [ref|].
    + rewrite (attach_spec _ _ _ _ _ H) in Hrun. injection Hrun as <-.
      eapply Hactive; [apply lookup_setOutlet_eq|done].
    + destruct (activateWith_Ok _ _ _ _ _ _ _ H Hrun)
        as (_ & config & factory & context' & σ2 & that & r & _ & _ & _ & _ & _
            & Hthat & _ & _ & _ & Hinst).
      eapply Hactive; [exact Hthat|].
      destruct (componentType factory); by destruct Hinst as [_ ->].
  - intros e σ1 Hrun. rewrite (ngOnInit_spec _ _ _ _ H) in Hrun.
    destruct (activated this) as [a|] eqn:Ha; [done|].
    destruct (registries σ !! parentContexts this) as [scope|];
      [|by injection Hrun as <- <-].
    destruct (scope !! name this) as [context|]; [|done].
    destruct (ctxRoute context) as [rt|]; [|done].
    destruct (ctxAttachRef context) as [ref|].
    + by rewrite (attach_spec _ _ _ _ _ H) in Hrun.
    + pose proof (activateWith_inactive_throws _ _ _ _ _ _ _ _ H Ha Hrun) as Hns.
      split; intros ->; apply Hns; [by left|by right].
Qed.

(** The outlet 1 is initialised twice with route A pending. *)
Lemma ngOnInit_acts_once_witness :
  exists σ1,
    RouterOutlet.ngOnInit 4 1 Scene.pendingA = (Ok tt, σ1) /\
    RouterOutlet.ngOnInit 4 1 σ1 = (Ok tt, σ1) /\
    emittedAt ActivateChannel σ1 1 = Some [Some 3].
Proof.
  pose (res := RouterOutlet.ngOnInit 4 1 Scene.pendingA).
  assert (RouterOutlet.ngOnInit 4 1 Scene.pendingA = res) as Hres by reflexivity.
  vm_compute in res.
  exists (snd res). split; [exact Hres|]. split; [|reflexivity].
  exact (proj1 (ngOnInit_acts_once 4 Scene.pendingA 1 _ eq_refl) _ 4 Hres).
Defined.

(** X11: the only way [deactivate] is refused with the not-activated error
    is through [component]: the outlet is Active, [component] throws that
    error (its placeholders end at an Inactive outlet), and then nothing was
    destroyed, cleared or emitted; the store is as it was. *)
Theorem deactivate_refused_only_by_component fuel σ o this σ' :
  outlets σ !! o = Some this ->
  RouterOutlet.deactivate fuel o σ = (Throw NotActivatedError, σ') <->
  is_Some (activated this) /\
  RouterOutlet.component fuel o σ = Throw NotActivatedError /\
  σ' = σ.
Proof.
  intros H. destruct (activated this) as [a|] eqn:Ha.
  - rewrite (deactivate_active _ _ _ _ _ H Ha).
    destruct (RouterOutlet.component fuel o σ) as [c|e].
    + split; [|by intros (_ & ? & _)].
      destruct (components σ !! a) as [r|]; [|done].
      intros Hrun. apply emit_throws in Hrun. by destruct Hrun.
    + split.
      * intros [= -> ->]. by split; [eexists|].
      * by intros (_ & [= ->] & ->).
  - rewrite (deactivate_inactive _ _ _ _ H Ha).
    split; [done|]. by intros ([? ?] & _).
Qed.

(** The outlet 1 holds the placeholder 3, whose nested outlet 5 is set and
    Inactive. *)
Lemma deactivate_refused_only_by_component_witness :
  RouterOutlet.deactivate 4 1 Scene.nestedResolved
    = (Throw NotActivatedError, Scene.nestedResolved).
Proof.
  apply (deactivate_refused_only_by_component 4 Scene.nestedResolved 1 _
           Scene.nestedResolved eq_refl).
  split; [eexists; reflexivity|]. split; reflexivity.
Defined.

(** ** After a failure, and late creation *)

Lemma getOrCreateContext_keeps_scopes g n σ r σ' g' :
  ChildrenOutletContexts.getOrCreateContext g n σ = (r, σ') ->
  is_Some (registries σ !! g') -> is_Some (registries σ' !! g').
Proof.
  unfold ChildrenOutletContexts.getOrCreateContext.
  destruct (registries σ !! g) as [m|]; [|by intros [= <- <-]].
  destruct (m !! n); [by intros [= <- <-]|].
  intros [= <- <-] Hg'. simpl.
  destruct (decide (g = g')) as [->|Hne]; [by rewrite lookup_insert_eq|].
  rewrite lookup_insert_ne by done.
  destruct (decide (nextId σ = g')) as [->|Hne']; [by rewrite lookup_insert_eq|].
  by rewrite lookup_insert_ne.
Qed.

(** The store after an activation that threw before the view was created. *)
Lemma activateWith_aborted fuel σ o this rt rsv e σ' :
  outlets σ !! o = Some this ->
  activated this = None ->
  RouterOutlet.activateWith fuel o rt rsv σ = (Throw e, σ') ->
  e = TypeError \/ e = NoComponentFactoryError \/ e = InstantiationError ->
  outlets σ' !! o = Some (withActivation None (Some rt) this) /\
  (forall g, is_Some (registries σ !! g) -> is_Some (registries σ' !! g)).
Proof.
  intros H Ha Hrun He.
  rewrite (activateWith_inactive _ _ _ _ _ _ H Ha) in Hrun.
  unfold activateWithInactive, routeRecorded in Hrun. rewrite Ha in Hrun.
  assert (outlets (setOutlet o (withActivation None (Some rt) this) σ) !! o
          = Some (withActivation None (Some rt) this)) as H1
    by apply lookup_setOutlet_eq.
  destruct (routeConfig (_futureSnapshot rt)) as [config|];
    [|by injection Hrun as <- <-].
  destruct (default (resolver this) rsv (Route.component config))
    as [factory|]; [|by injection Hrun as <- <-].
  destruct (ChildrenOutletContexts.getOrCreateContext _ _ _)
    as [[context|e'] σ2] eqn:Hctx.
  - destruct (getOrCreateContext_frame _ _ _ _ _ Hctx) as [Hout _].
    destruct (create factory _).
    + destruct (ViewContainerRef.newInstance (componentType factory)); [|done].
      apply emit_throws in Hrun. by destruct Hrun as [->| ->], He as [|[|]].
    + injection Hrun as <- <-. split; [by rewrite Hout|].
      intros g Hg. by eapply getOrCreateContext_keeps_scopes.
  - injection Hrun as <- <-.
    unfold ChildrenOutletContexts.getOrCreateContext in Hctx.
    destruct (registries _ !! _) as [m|].
    + by destruct (m !! name this).
    + injection Hctx as <- <-. by destruct He as [|[|]].
Qed.

(** X8: an activation that failed while reading the configuration, resolving
    the factory or creating the view does not block the outlet: until the
    next activation [isActivated] is false while [activatedRouteData] already
    answers with the data of the route that failed, and a next
    [activateWith], with a route, resolver and factory in order, returns and
    leaves the outlet Active with the new route. *)
Theorem activation_can_be_retried
    fuel fuel' σ o this rt1 rsv1 e σ1 rt2 rsv2 config factory :
  outlets σ !! o = Some this ->
  host this = None ->
  is_Some (registries σ !! parentContexts this) ->
  RouterOutlet.activateWith fuel o rt1 rsv1 σ = (Throw e, σ1) ->
  e = TypeError \/ e = NoComponentFactoryError \/ e = InstantiationError ->
  routeConfig (_futureSnapshot rt2) = Some config ->
  match rsv2 with
  | Some explicit => explicit
  | None => resolver this
  end (Route.component config) = Some factory ->
  (forall inj, create factory inj = true) ->
  RouterOutlet.isActivated o σ1 = (Ok false, σ1) /\
  RouterOutlet.activatedRouteData o σ1 = Ok (data (snapshot rt1)) /\
  exists σ2 that a,
    RouterOutlet.activateWith (S fuel') o rt2 rsv2 σ1 = (Ok tt, σ2) /\
    outlets σ2 !! o = Some that /\
    activated that = Some a /\
    _activatedRoute that = Some rt2.
Proof.
  intros H Hh Hs Hrun He Hcfg Hfac Hcreate.
  destruct (activated this) as [a0|] eqn:Ha.
  { rewrite (activateWith_active _ _ _ _ _ _ _ H Ha) in Hrun.
    injection Hrun as <- <-. by destruct He as [|[|]]. }
  destruct (activateWith_aborted _ _ _ _ _ _ _ _ H Ha Hrun He) as [H1 Hreg].
  split; [by rewrite (isActivated_spec _ _ _ H1)|].
  split; [unfold RouterOutlet.activatedRouteData; by rewrite H1|].
  destruct (activateWith_returns fuel' σ1 o _ rt2 rsv2 config factory H1)
    as [σ2 Hrun2]; try done.
  { by apply Hreg. }
  destruct (activateWith_Ok _ _ _ _ _ _ _ H1 Hrun2)
    as (_ & config' & factory' & context & σ' & that & r & _ & _ & _ & _ & _
        & Hthat & _ & _ & _ & Hinst).
  exists σ2, that, (nextId σ'). split; [done|]. split; [done|].
  destruct (componentType factory'); by destruct Hinst as [_ ->].
Qed.

(** The outlet 1 fails to activate route A for want of a factory, then
    activates route B. *)
Lemma activation_can_be_retried_witness :
  RouterOutlet.activatedRouteData 1 Scene.abortedA = Ok {[ "title" := "A" ]} /\
  exists σ2 that,
    RouterOutlet.activateWith 1 1 Scene.routeB None Scene.abortedA = (Ok tt, σ2) /\
    outlets σ2 !! 1 = Some that /\
    _activatedRoute that = Some Scene.routeB.
Proof.
  destruct (activation_can_be_retried 4 0 Scene.created 1 Scene.freshOutlet
              Scene.routeA (Some Scene.resolveNone) NoComponentFactoryError
              Scene.abortedA Scene.routeB None
              {| Route.component := ViewType "ViewB" |}
              (Scene.factoryOf (ViewType "ViewB")) eq_refl eq_refl)
    as (_ & Hdata & σ2 & that & a & Hrun & Hthat & _ & Hrt).
  - eexists. reflexivity.
  - reflexivity.
  - right. left. reflexivity.
  - reflexivity.
  - reflexivity.
  - intros inj. reflexivity.
  - split; [exact Hdata|]. exists σ2, that.
    split; [exact Hrun|]. split; [exact Hthat|exact Hrt].
Defined.




(** ** Tearing a placeholder down *)

(** The relays that [activateWith] subscribes are registered on
    [destroy$]. *)
Lemma subscribe_sinksRegistered sink o c :
  sinksRegistered c -> sinksRegistered (EmptyOutletComponent.subscribe sink o c).
Proof.
  intros Hc ch s Hs. unfold EmptyOutletComponent.subscribe in *. simpl.
  assert (s ∈ observers ch c ++ [(sink, o)]) as Hin by (by destruct ch).
  apply elem_of_app in Hin as [Hin|Hin%list_elem_of_singleton].
  - apply elem_of_app. left. by eapply Hc.
  - subst s. apply elem_of_app. right. by apply list_elem_of_singleton.
Qed.

Lemma newInstance_sinksRegistered c :
  ViewContainerRef.newInstance EmptyOutletComponentType = EmptyOutletInstance c ->
  sinksRegistered c.
Proof. intros [= <-] ch s Hs. by destruct ch; apply elem_of_nil in Hs. Qed.

Lemma unsubscribed_all sinks (obs : list (nat * nat)) :
  (forall s, s ∈ obs -> s.1 ∈ sinks) ->
  EmptyOutletComponent.unsubscribed sinks obs = [].
Proof.
  unfold EmptyOutletComponent.unsubscribed.
  induction obs as [|s obs IH]; intros Hall; [done|].
  rewrite filter_cons_False.
  - apply IH. intros s' Hs'. apply Hall. by apply elem_of_cons; right.
  - intros Hnot. apply Hnot, Hall. by apply elem_of_cons; left.
Qed.

(** X10: an outlet that holds a placeholder whose relays were subscribed by
    [activateWith] is deactivated, and [deactivate] returns: the placeholder
    is destroyed, its [ngOnDestroy] has unsubscribed every relay on both
    channels and completed [destroy$], and an event that an outlet hosted by
    the placeholder emits afterwards is emitted by that outlet only. *)
Theorem deactivate_releases_the_relays fuel σ o this a r c σ' :
  outlets σ !! o = Some this ->
  activated this = Some a ->
  components σ !! a = Some r ->
  instance r = EmptyOutletInstance c ->
  sinksRegistered c ->
  RouterOutlet.deactivate fuel o σ = (Ok tt, σ') ->
  exists r' c',
    components σ' !! a = Some r' /\
    destroyed r' = true /\
    instance r' = EmptyOutletInstance c' /\
    (forall ch, observers ch c' = []) /\
    destroy_ c' = [] /\
    forall fuel' ch ev n nested,
      outlets σ' !! n = Some nested ->
      host nested = Some a ->
      RouterOutlet.emit (S fuel') ch ev n σ'
        = (Ok tt, setOutlet n (record ch ev nested) σ').
Proof.
  intros H Ha Hr Hi Hsinks Hrun.
  destruct (deactivate_Ok _ _ _ _ _ _ H Ha Hrun) as (v & r0 & _ & Hr0 & Hc & _).
  rewrite Hr in Hr0. injection Hr0 as <-.
  assert (forall ch, observers ch (EmptyOutletComponent.ngOnDestroy c) = [])
    as Hnone.
  { intros ch. destruct ch; simpl; apply unsubscribed_all; intros s Hs.
    - by apply (Hsinks ActivateChannel).
    - by apply (Hsinks DeactivateChannel). }
  assert (components σ' !! a = Some (destroyedRef r)) as Hr'.
  { rewrite Hc. apply lookup_insert_eq. }
  exists (destroyedRef r), (EmptyOutletComponent.ngOnDestroy c).
  split; [done|]. split; [done|].
  split; [unfold destroyedRef; simpl; by rewrite Hi|].
  split; [done|]. split; [done|].
  intros fuel' ch ev n nested Hn Hh.
  rewrite emit_S, Hn. cbv zeta. rewrite Hh, Hr'.
  unfold destroyedRef. simpl instance. rewrite Hi. by rewrite Hnone.
Qed.

(** The outlet 1 holds the placeholder 3, with its relay to the outlet 1,
    and the nested outlet 5 holds the ViewA instance 7: after the outlet 1 is
    deactivated, an event of the outlet 5 does not reach the outlet 1. *)
Lemma deactivate_releases_the_relays_witness :
  exists σ' σ'',
    RouterOutlet.deactivate 4 1 Scene.nestedActive = (Ok tt, σ') /\
    RouterOutlet.emit 1 DeactivateChannel (Some 7) 5 σ' = (Ok tt, σ'') /\
    emittedAt DeactivateChannel σ'' 5 = Some [Some 7] /\
    emittedAt DeactivateChannel σ'' 1 = Some [Some 7] /\
    emittedAt DeactivateChannel σ' 1 = Some [Some 7].
Proof.
  destruct (deactivate_unhosted 3 Scene.nestedActive 1 _ 3 (Some 7) _
              eq_refl eq_refl eq_refl eq_refl eq_refl) as [σ' [Hrun Hσ']].
  assert (sinksRegistered Scene.placeholderResolved) as Hsinks.
  { intros ch s Hs. destruct ch; apply list_elem_of_singleton in Hs; subst s;
      by apply list_elem_of_singleton. }
  destruct (deactivate_releases_the_relays 4 Scene.nestedActive 1 _ 3 _
              Scene.placeholderResolved σ' eq_refl eq_refl eq_refl eq_refl
              Hsinks Hrun) as (r' & c' & _ & _ & _ & _ & _ & Hemit).
  exists σ'. eexists. split; [exact Hrun|]. split.
  - apply (Hemit 0 DeactivateChannel (Some 7) 5); rewrite Hσ'; reflexivity.
  - rewrite Hσ'. repeat split; vm_compute; reflexivity.
Defined.

(** X12: one activation of a plain view, from [activateWith] to
    [deactivate], both having returned: the outlet emitted the created
    instance once on the activate channel and the same instance once on the
    deactivate channel; the instance is destroyed and out of the container,
    the outlet is Inactive with no route, [activatedRouteData] answers with
    the empty object, and the outlet accepts a new activation. *)
Theorem one_activation_from_start_to_end
    fuel fuel' σ o this rt rsv σ1 that1 a r s σ2 :
  outlets σ !! o = Some this ->
  RouterOutlet.activateWith fuel o rt rsv σ = (Ok tt, σ1) ->
  outlets σ1 !! o = Some that1 ->
  activated that1 = Some a ->
  components σ1 !! a = Some r ->
  instance r = ViewInstance s ->
  RouterOutlet.deactivate fuel' o σ1 = (Ok tt, σ2) ->
  exists that2,
    outlets σ2 !! o = Some that2 /\
    activateEvents that2 = activateEvents this ++ [Some a] /\
    deactivateEvents that2 = deactivateEvents this ++ [Some a] /\
    activated that2 = None /\
    _activatedRoute that2 = None /\
    (a ∉ views (location that2)) /\
    destroyed <$> components σ2 !! a = Some true /\
    RouterOutlet.activatedRouteData o σ2 = Ok ∅ /\
    forall fuel'' rt' rsv',
      fst (RouterOutlet.activateWith fuel'' o rt' rsv' σ2)
        ≠ Throw AlreadyActivatedError.
Proof.
  intros H Hrun Hthat1 Ha Hr Hi Hde.
  destruct (activateWith_Ok _ _ _ _ _ _ _ H Hrun)
    as (_ & config & factory & context & σ0 & that & r' & _ & _ & _ & _ & _
        & Hthat & Hr' & _ & _ & Hinst).
  rewrite Hthat1 in Hthat. injection Hthat as <-.
  assert (a = nextId σ0) as ->.
  { destruct (componentType factory); destruct Hinst as [_ Hm];
      rewrite Hm in Ha; by injection Ha. }
  rewrite Hr in Hr'. injection Hr' as <-.
  destruct (componentType factory) as [|s']; destruct Hinst as [Hi' Hm];
    [by rewrite Hi in Hi'|].
  destruct (deactivate_Ok _ _ _ _ _ _ Hthat1 Ha Hde)
    as (c & r0 & Hc & Hr0 & Hcmp & Hthat2).
  assert (c = Some (nextId σ0)) as ->.
  { destruct fuel' as [|fuel']; [done|]. simpl in Hc.
    rewrite Hthat1, Ha, Hr, Hi in Hc. by injection Hc. }
  eexists. split; [exact Hthat2|].
  assert (RouterOutlet.activatedRouteData o σ2 = Ok ∅) as Hdata.
  { unfold RouterOutlet.activatedRouteData. by rewrite Hthat2. }
  rewrite Hm. repeat split; try done.
  - simpl. intros Hin. apply list_elem_of_filter in Hin as [Hne _]. done.
  - rewrite Hcmp, lookup_insert_eq. done.
  - intros fuel'' rt' rsv'.
    rewrite (activateWith_inactive _ _ _ _ _ _ Hthat2) by done.
    unfold activateWithInactive.
    destruct (routeConfig (_futureSnapshot rt')); [|done].
    destruct (default _ rsv' _); [|done].
    destruct (ChildrenOutletContexts.getOrCreateContext _ _ _)
      as [[ctx|e] σ3] eqn:Hctx.
    + destruct (create _ _); [|done].
      destruct (ViewContainerRef.newInstance _); [|done].
      intros Hthrow.
      destruct (RouterOutlet.emit _ _ _ _ _) as [[[]|e] σ4] eqn:Hemit; [done|].
      apply emit_throws in Hemit. simpl in Hthrow. injection Hthrow as ->.
      by destruct Hemit.
    + simpl. intros [= ->].
      unfold ChildrenOutletContexts.getOrCreateContext in Hctx.
      destruct (registries _ !! _) as [m|]; [by destruct (m !! _)|done].
Qed.

(** The outlet 1 activates route A and is deactivated. *)
Lemma one_activation_from_start_to_end_witness :
  exists σ2 that2,
    RouterOutlet.deactivate 4 1 Scene.activeA = (Ok tt, σ2) /\
    outlets σ2 !! 1 = Some that2 /\
    activateEvents that2 = [Some 3] /\
    deactivateEvents that2 = [Some 3] /\
    views (location that2) = [] /\
    RouterOutlet.activatedRouteData 1 σ2 = Ok ∅.
Proof.
  destruct (deactivate_unhosted 3 Scene.activeA 1 outletA 3 (Some 3) _
              eq_refl eq_refl eq_refl eq_refl eq_refl) as [σ2 [Hrun Hσ2]].
  destruct (one_activation_from_start_to_end 4 4 Scene.created 1
              Scene.freshOutlet Scene.routeA None Scene.activeA outletA 3 _
              "ViewA" σ2 eq_refl eq_refl eq_refl eq_refl eq_refl eq_refl Hrun)
    as (that2 & Hthat2 & Hact & Hdeact & _ & _ & _ & _ & Hdata & _).
  exists σ2, that2.
  split; [exact Hrun|]. split; [exact Hthat2|]. split; [exact Hact|].
  split; [exact Hdeact|]. split; [|exact Hdata].
  rewrite Hσ2 in Hthat2. injection Hthat2 as <-. reflexivity.
Defined.
